(** * Mini Cactpot Calculator: the expected-value engine

    A shallow embedding of the game-logic module (gilValue,
    calculateOptionEV, calculateBestOptions, formatBestOptions,
    calculateCellEV, getPositionPriority, findBestCellsToReveal), of the
    older copy of gilValue / calculateOptionEV kept in cactpot-calc.js, of
    the Validation class and of the key filter and duplicate search of
    UIManager, followed by the properties the specification states about
    them and by further properties read off the code.

    Modelling conventions.
    - A board is a JavaScript array whose cells hold [null] or an integer
      (of a size a double holds exactly and prints in plain decimal):
      [list (option Z)].  Reading [board[i]] past the end yields
      [undefined], so what a line sees is a [value].
    - JavaScript numbers are idealised: a number is [NaN] or an exact
      rational.  Rounding of IEEE doubles is abstracted away, and the
      infinities are left out; the one division of the program,
      [evTotal / combinationCount], has a zero divisor only when the
      dividend is zero as well (no loop iteration ran), which is [NaN].
    - [console.log] calls have no influence on results and are omitted.
    - A string is a [string] of one-byte characters; of the page code only
      the functions that do not touch the document are embedded.
    - A function that may end by a JavaScript exception returns an
      [outcome]. *)

From Stdlib Require Import String DecimalString.
From Stdlib Require Import ZArith QArith Qabs List Bool Lia Permutation.
From Stdlib Require Import SpecFloat.
Import ListNotations.

Local Open Scope Z_scope.

(* ================================================================== *)
(** ** JavaScript values and numbers *)

Module JS.

Inductive number : Type :=
| NaN
| Num (q : Q).

(** What an array read can produce in this program. *)
Inductive value : Type :=
| Undefined
| Null
| Int (z : Z).

Inductive error : Type :=
| TypeError (msg : string).

Inductive outcome (A : Type) : Type :=
| Returned (a : A)
| Thrown (e : error).

Arguments Returned {A} a.
Arguments Thrown {A} e.

Definition bind {A B} (m : outcome A) (k : A -> outcome B) : outcome B :=
  match m with
  | Returned a => k a
  | Thrown e => Thrown e
  end.

(** [item === null] *)
Definition is_null (v : value) : bool :=
  match v with Null => true | _ => false end.

(** ToNumber on the values above: [undefined] is NaN, [null] is 0. *)
Definition to_number (v : value) : number :=
  match v with
  | Undefined => NaN
  | Null => Num 0
  | Int z => Num (inject_Z z)
  end.

Definition num_add (a b : number) : number :=
  match a, b with
  | Num x, Num y => Num (x + y)
  | _, _ => NaN
  end.

Definition num_sub (a b : number) : number :=
  match a, b with
  | Num x, Num y => Num (x - y)
  | _, _ => NaN
  end.

(** [a / b]; a zero divisor is only met as 0/0. *)
Definition num_div (a b : number) : number :=
  match a, b with
  | Num x, Num y => if Qeq_bool y 0 then NaN else Num (x / y)
  | _, _ => NaN
  end.

(** [Math.abs] *)
Definition Math_abs (a : number) : number :=
  match a with
  | Num x => Num (Qabs x)
  | NaN => NaN
  end.

(** [a < b] *)
Definition num_lt (a b : number) : bool :=
  match a, b with
  | Num x, Num y => negb (Qle_bool y x)
  | _, _ => false
  end.

(** [a === b] on numbers: NaN equals nothing. *)
Definition strict_eq (a b : number) : bool :=
  match a, b with
  | Num x, Num y => Qeq_bool x y
  | _, _ => false
  end.

Definition max2 (a b : number) : number :=
  match a, b with
  | Num x, Num y => if Qle_bool x y then Num y else Num x
  | _, _ => NaN
  end.

(** [Math.max(...l)].  With no argument JavaScript answers -Infinity;
    every call of the program passes at least one number, and the empty
    case is given [NaN] here. *)
Definition Math_max (l : list number) : number :=
  match l with
  | [] => NaN
  | x :: xs => fold_left max2 xs x
  end.

(** [arr[i]] on an array of cells. *)
Definition array_get (board : list (option Z)) (i : nat) : value :=
  match nth_error board i with
  | None => Undefined
  | Some None => Null
  | Some (Some z) => Int z
  end.

(** [arr.indexOf(null)], as an option instead of -1. *)
Fixpoint indexOf_null (l : list value) : option nat :=
  match l with
  | [] => None
  | v :: t => if is_null v then Some 0%nat
              else option_map S (indexOf_null t)
  end.

(** [copy = [...arr]; copy[i] = v] for an index inside the array. *)
Fixpoint array_set (l : list value) (i : nat) (v : value) : list value :=
  match l, i with
  | [], _ => []
  | _ :: t, O => v :: t
  | x :: t, S i' => x :: array_set t i' v
  end.

(** [arr.filter((_, index) => index !== i)] *)
Fixpoint remove_at {A} (i : nat) (l : list A) : list A :=
  match l, i with
  | [], _ => []
  | _ :: t, O => t
  | x :: t, S i' => x :: remove_at i' t
  end.

(** [arr.includes(x)] on integers. *)
Definition includes (l : list Z) (x : Z) : bool := existsb (Z.eqb x) l.

(** [arr.sort(cmp)]: the sort is stable; an element moves in front of
    another one only when the comparator is positive for the pair taken in
    their current order. *)
Fixpoint sort_insert {A} (cmp : A -> A -> Z) (x : A) (l : list A) : list A :=
  match l with
  | [] => [x]
  | y :: t => if 0 <? cmp x y then y :: sort_insert cmp x t else x :: y :: t
  end.

Definition sort {A} (cmp : A -> A -> Z) (l : list A) : list A :=
  fold_right (sort_insert cmp) [] l.

End JS.

Import JS.

(* ================================================================== *)
(** ** The game-logic module *)

Module GameLogic.

(** The object literal of [gilValue], keys in source order. *)
Definition valueToGil : list (Z * Z) :=
  [ (6, 10000); (7, 36); (8, 720); (9, 360); (10, 80); (11, 252);
    (12, 108); (13, 72); (14, 54); (15, 180); (16, 72); (17, 180);
    (18, 119); (19, 36); (20, 306); (21, 1080); (22, 144); (23, 1800);
    (24, 3600) ].

(** [obj[total]]: the property whose key prints like [total]; a number
    prints like the integer key [k] exactly when it equals [k]. *)
Definition property (obj : list (Z * Z)) (total : number) : option Z :=
  match total with
  | NaN => None
  | Num q =>
      option_map snd (find (fun kv => Qeq_bool q (inject_Z (fst kv))) obj)
  end.

(** [return valueToGil[total] || 0;] *)
Definition gilValue (total : number) : number :=
  match property valueToGil total with
  | Some v => if v =? 0 then Num 0 else Num (inject_Z v)
  | None => Num 0
  end.

Definition nullCount (optionValues : list value) : nat :=
  length (filter is_null optionValues).

(** [optionValues.reduce((sum, val) => sum + val, 0)] *)
Definition total_of (optionValues : list value) : number :=
  fold_left (fun sum val => num_add sum (to_number val)) optionValues (Num 0).

(** The recursion of [calculateOptionEV]; every call fills one null, so
    the number of nulls plus one bounds its depth. *)
Fixpoint calculateOptionEV_rec (fuel : nat) (optionValues : list value)
    (availableNumbers : list Z) : number :=
  match fuel with
  | O => NaN
  | S fuel' =>
    if Nat.eqb (nullCount optionValues) 0 then
      gilValue (total_of optionValues)
    else
      match indexOf_null optionValues with
      | None => NaN  (* excluded: a null was counted just above *)
      | Some nullIndex =>
        let '(evTotal, combinationCount) :=
          fold_left
            (fun '(evTotal, combinationCount) i =>
               let number := nth i availableNumbers 0 in
               let newOptionValues :=
                 array_set optionValues nullIndex (Int number) in
               let newAvailableNumbers := remove_at i availableNumbers in
               let ev := calculateOptionEV_rec fuel' newOptionValues
                           newAvailableNumbers in
               (num_add evTotal ev, S combinationCount))
            (seq 0 (length availableNumbers))
            (Num 0, O) in
        num_div evTotal (Num (inject_Z (Z.of_nat combinationCount)))
      end
  end.

Definition calculateOptionEV (optionValues : list value)
    (availableNumbers : list Z) : number :=
  calculateOptionEV_rec (S (nullCount optionValues)) optionValues
    availableNumbers.

Definition options : list (list nat) :=
  [ [0; 1; 2]; [3; 4; 5]; [6; 7; 8];
    [0; 3; 6]; [1; 4; 7]; [2; 5; 8];
    [0; 4; 8]; [2; 4; 6] ]%nat.

Definition lineNames : list string :=
  [ "Row 1"; "Row 2"; "Row 3"; "Column 1"; "Column 2"; "Column 3";
    "Diagonal (Top-Left)"; "Diagonal (Top-Right)" ]%string.

Definition allNumbers : list Z := [1; 2; 3; 4; 5; 6; 7; 8; 9].

(** [board.filter(element => element !== null)] *)
Fixpoint takenNumbers (board : list (option Z)) : list Z :=
  match board with
  | [] => []
  | None :: t => takenNumbers t
  | Some z :: t => z :: takenNumbers t
  end.

Definition availableNumbers (board : list (option Z)) : list Z :=
  filter (fun item => negb (includes (takenNumbers board) item)) allNumbers.

Definition lineValues (board : list (option Z)) (line : list nat)
  : list value :=
  map (fun i => array_get board i) line.

Record BestOptions : Type := mkBestOptions {
  bestOptions : list (list nat);
  maxEV : number;
  optionNames : list string
}.

Definition calculateBestOptions (board : list (option Z))
  : outcome BestOptions :=
  let optionValues := map (lineValues board) options in
  let availableNumbers := availableNumbers board in
  let evs :=
    map (fun option => calculateOptionEV option availableNumbers)
        optionValues in
  let maxEV := Math_max evs in
  let bestOptions :=
    map (fun item => nth (snd item) options [])
        (filter (fun item => strict_eq (fst item) maxEV)
                (combine evs (seq 0 (length evs)))) in
  Returned (mkBestOptions bestOptions maxEV lineNames).

(** The table inside [calculateCellEV]; a key that is absent reads as
    [undefined]. *)
Definition cellLines (cellIndex : nat) : option (list nat) :=
  match cellIndex with
  | 0 => Some [0; 3; 6]
  | 1 => Some [0; 4]
  | 2 => Some [0; 5; 7]
  | 3 => Some [1; 3]
  | 4 => Some [1; 4; 6; 7]
  | 5 => Some [1; 5]
  | 6 => Some [2; 3; 7]
  | 7 => Some [2; 4]
  | 8 => Some [2; 5; 6]
  | _ => None
  end%nat.

Definition calculateCellEV (board : list (option Z)) (cellIndex : nat)
  : outcome number :=
  if negb (is_null (array_get board cellIndex)) then Returned (Num 0)
  else
    bind (calculateBestOptions board) (fun best =>
    let baseline := maxEV best in
    let availableNumbers := availableNumbers board in
    (* the loop pushing one EV per line *)
    let lineEVs :=
      map (fun line => calculateOptionEV (lineValues board line)
                         availableNumbers) options in
    match cellLines cellIndex with
    | None => Thrown (TypeError "linesForThisCell is not iterable")
    | Some linesForThisCell =>
      let cellScore :=
        fold_left (fun cellScore lineIndex =>
                     num_add cellScore (nth lineIndex lineEVs NaN))
                  linesForThisCell (Num 0) in
      let expectedGain := num_sub cellScore baseline in
      Returned expectedGain
    end).

Definition getPositionPriority (cellIndex : nat) : Z :=
  if Nat.eqb cellIndex 4 then 4
  else if existsb (Nat.eqb cellIndex) [0; 2; 6; 8]%nat then 3
  else if existsb (Nat.eqb cellIndex) [1; 3; 5; 7]%nat then 2
  else 1.

Record BestCells : Type := mkBestCells {
  bestCells : list nat;
  cellsMaxEV : number   (* the field [maxEV] of the returned object *)
}.

Definition epsilon : number := Num (1 # 100).

Definition findBestCellsToReveal (board : list (option Z))
  : outcome BestCells :=
  let filledCount := length (takenNumbers board) in
  if (4 <=? filledCount)%nat then Returned (mkBestCells [] (Num 0))
  else
    bind
      (fold_left
         (fun acc i =>
            bind acc (fun cellEVs =>
            if is_null (array_get board i) then
              bind (calculateCellEV board i) (fun ev =>
              Returned (cellEVs ++ [(i, ev)]))
            else Returned cellEVs))
         (seq 0 9) (Returned []))
      (fun cellEVs =>
       if Nat.eqb (length cellEVs) 0 then Returned (mkBestCells [] (Num 0))
       else
         let maxEV := Math_max (map snd cellEVs) in
         let bestCells :=
           map fst
             (sort (fun a b => getPositionPriority (fst b)
                               - getPositionPriority (fst a))
                (filter (fun cell =>
                           num_lt (Math_abs (num_sub (snd cell) maxEV))
                                  epsilon)
                        cellEVs)) in
         Returned (mkBestCells bestCells maxEV)).

(** [a[k] === b[k]] for two arrays of positions; a read past the end is
    [undefined], which equals only [undefined]. *)
Definition same_at (a b : list nat) (k : nat) : bool :=
  match nth_error a k, nth_error b k with
  | Some x, Some y => Nat.eqb x y
  | None, None => true
  | _, _ => false
  end.

(** [arr.findIndex(p)], as an option instead of -1. *)
Fixpoint findIndex {A} (p : A -> bool) (l : list A) : option nat :=
  match l with
  | [] => None
  | x :: t => if p x then Some O else option_map S (findIndex p t)
  end.

(** The table written out inside [formatBestOptions]. *)
Definition formatTable : list (list nat) :=
  [ [0; 1; 2]; [3; 4; 5]; [6; 7; 8];
    [0; 3; 6]; [1; 4; 7]; [2; 5; 8];
    [0; 4; 8]; [2; 4; 6] ]%nat.

(** [arr.join(', ')]: an [undefined] element prints as the empty string. *)
Definition join (sep : string) (l : list (option string)) : string :=
  String.concat sep
    (map (fun o => match o with Some x => x | None => EmptyString end) l).

Definition formatBestOptions (bestOptions : list (list nat))
    (optionNames : list string) : string :=
  if Nat.eqb (length bestOptions) 0 then "No valid options"%string
  else
    let optionStrings :=
      map (fun option =>
             let optionIndex :=
               findIndex (fun opt => same_at opt option 0
                                     && same_at opt option 1
                                     && same_at opt option 2)
                         formatTable in
             match optionIndex with
             | Some i => nth_error optionNames i
             | None => None   (* optionNames[-1] *)
             end)
          bestOptions in
    join ", " optionStrings.

End GameLogic.

(* ================================================================== *)
(** ** JavaScript numbers as IEEE 754 binary64 *)

Module Double.

Definition prec : Z := 53.
Definition emax : Z := 1024.

Definition double : Type := spec_float.

(** The double nearest to an integer (the integer itself up to 2^53). *)
Definition of_Z (z : Z) : double := binary_normalize prec emax z 0 false.

Definition zero : double := S754_zero false.
Definition nan : double := S754_nan.

Definition add (a b : double) : double := SFadd prec emax a b.
Definition sub (a b : double) : double := SFsub prec emax a b.
Definition div (a b : double) : double := SFdiv prec emax a b.

(** [Math.abs], [a < b], [a === b] *)
Definition Math_abs (a : double) : double := SFabs a.
Definition lt (a b : double) : bool := SFltb a b.
Definition strict_eq (a b : double) : bool := SFeqb a b.
Definition le (a b : double) : bool := SFleb a b.

Definition is_nan (a : double) : bool :=
  match a with S754_nan => true | _ => false end.

(** ToNumber of what an array read yields. *)
Definition to_number (v : value) : double :=
  match v with
  | Undefined => nan
  | Null => zero
  | Int z => of_Z z
  end.

(** One step of [Math.max]: NaN is contagious, +0 is above -0, otherwise
    the number replaces the highest so far when it is greater. *)
Definition higher (highest number : double) : double :=
  match highest, number with
  | S754_nan, _ | _, S754_nan => S754_nan
  | S754_zero true, S754_zero false => number
  | _, _ => if lt highest number then number else highest
  end.

(** [Math.max(...l)], which starts from -Infinity. *)
Definition Math_max (l : list double) : double :=
  fold_left higher l (S754_infinity true).

(** The value of a double that is neither NaN nor infinite. *)
Definition to_Q (a : double) : Q :=
  match a with
  | S754_finite s m e =>
      let v := match e with
               | Zneg p => Zpos m # Pos.pow 2 p
               | _ => inject_Z (Zpos m * 2 ^ e)
               end in
      if s then Qopp v else v
  | _ => 0%Q
  end.

(** Structural equality of doubles, as a boolean. *)
Definition same (a b : double) : bool :=
  match a, b with
  | S754_zero s, S754_zero t => Bool.eqb s t
  | S754_infinity s, S754_infinity t => Bool.eqb s t
  | S754_nan, S754_nan => true
  | S754_finite s m e, S754_finite t n f =>
      Bool.eqb s t && Pos.eqb m n && Z.eqb e f
  | _, _ => false
  end.

End Double.

(* ================================================================== *)
(** ** The game-logic module in binary64 arithmetic

    The functions of the game-logic module once more, with every number a
    double and every [+], [-], [/] rounded as JavaScript rounds it.  The
    parts without arithmetic (the line table, the reads of the board, the
    available numbers) are those of [GameLogic]. *)

Module GameLogic64.

Import Double.

(** [valueToGil[total]]: the key that prints like [total]. *)
Definition property (obj : list (Z * Z)) (total : double) : option Z :=
  option_map snd (find (fun kv => strict_eq total (of_Z (fst kv))) obj).

Definition gilValue (total : double) : double :=
  match property GameLogic.valueToGil total with
  | Some v => if v =? 0 then zero else of_Z v
  | None => zero
  end.

Definition total_of (optionValues : list value) : double :=
  fold_left (fun sum val => add sum (to_number val)) optionValues zero.

Fixpoint calculateOptionEV_rec (fuel : nat) (optionValues : list value)
    (availableNumbers : list Z) : double :=
  match fuel with
  | O => nan
  | S fuel' =>
    if Nat.eqb (GameLogic.nullCount optionValues) 0 then
      gilValue (total_of optionValues)
    else
      match indexOf_null optionValues with
      | None => nan  (* excluded: a null was counted just above *)
      | Some nullIndex =>
        let '(evTotal, combinationCount) :=
          fold_left
            (fun '(evTotal, combinationCount) i =>
               let number := nth i availableNumbers 0 in
               let newOptionValues :=
                 array_set optionValues nullIndex (Int number) in
               let newAvailableNumbers := remove_at i availableNumbers in
               let ev := calculateOptionEV_rec fuel' newOptionValues
                           newAvailableNumbers in
               (add evTotal ev, add combinationCount (of_Z 1)))
            (seq 0 (length availableNumbers))
            (zero, zero) in
        div evTotal combinationCount
      end
  end.

Definition calculateOptionEV (optionValues : list value)
    (availableNumbers : list Z) : double :=
  calculateOptionEV_rec (S (GameLogic.nullCount optionValues)) optionValues
    availableNumbers.

Record BestOptions : Type := mkBestOptions {
  bestOptions : list (list nat);
  maxEV : double;
  optionNames : list string
}.

Definition calculateBestOptions (board : list (option Z))
  : outcome BestOptions :=
  let optionValues := map (GameLogic.lineValues board) GameLogic.options in
  let availableNumbers := GameLogic.availableNumbers board in
  let evs :=
    map (fun option => calculateOptionEV option availableNumbers)
        optionValues in
  let maxEV := Math_max evs in
  let bestOptions :=
    map (fun item => nth (snd item) GameLogic.options [])
        (filter (fun item => strict_eq (fst item) maxEV)
                (combine evs (seq 0 (length evs)))) in
  Returned (mkBestOptions bestOptions maxEV GameLogic.lineNames).

Definition calculateCellEV (board : list (option Z)) (cellIndex : nat)
  : outcome double :=
  if negb (is_null (array_get board cellIndex)) then Returned zero
  else
    bind (calculateBestOptions board) (fun best =>
    let baseline := maxEV best in
    let availableNumbers := GameLogic.availableNumbers board in
    let lineEVs :=
      map (fun line => calculateOptionEV (GameLogic.lineValues board line)
                         availableNumbers) GameLogic.options in
    match GameLogic.cellLines cellIndex with
    | None => Thrown (TypeError "linesForThisCell is not iterable")
    | Some linesForThisCell =>
      let cellScore :=
        fold_left (fun cellScore lineIndex =>
                     add cellScore (nth lineIndex lineEVs nan))
                  linesForThisCell zero in
      let expectedGain := sub cellScore baseline in
      Returned expectedGain
    end).

Record BestCells : Type := mkBestCells {
  bestCells : list nat;
  cellsMaxEV : double   (* the field [maxEV] of the returned object *)
}.

(** The literal [0.01]: the double nearest to 1/100. *)
Definition epsilon : double := S754_finite false 5764607523034235 (-59).

Definition findBestCellsToReveal (board : list (option Z))
  : outcome BestCells :=
  let filledCount := length (GameLogic.takenNumbers board) in
  if (4 <=? filledCount)%nat then Returned (mkBestCells [] zero)
  else
    bind
      (fold_left
         (fun acc i =>
            bind acc (fun cellEVs =>
            if is_null (array_get board i) then
              bind (calculateCellEV board i) (fun ev =>
              Returned (cellEVs ++ [(i, ev)]))
            else Returned cellEVs))
         (seq 0 9) (Returned []))
      (fun cellEVs =>
       if Nat.eqb (length cellEVs) 0 then Returned (mkBestCells [] zero)
       else
         let maxEV := Math_max (map snd cellEVs) in
         let bestCells :=
           map fst
             (sort (fun a b => GameLogic.getPositionPriority (fst b)
                               - GameLogic.getPositionPriority (fst a))
                (filter (fun cell =>
                           lt (Math_abs (sub (snd cell) maxEV)) epsilon)
                        cellEVs)) in
         Returned (mkBestCells bestCells maxEV)).

End GameLogic64.

(* ================================================================== *)
(** ** The older copy in cactpot-calc.js *)

Module Legacy.

Import GameLogic.

Definition valueToGil : list (Z * Z) :=
  [ (6, 10000); (7, 36); (8, 720); (9, 360); (10, 80); (11, 252);
    (12, 108); (13, 72); (14, 54); (15, 180); (16, 72); (17, 180);
    (18, 119); (19, 36); (20, 306); (21, 1080); (22, 144); (23, 1800);
    (24, 3600) ].

(** [return valueToGil[total]]: [None] stands for [undefined]. *)
Definition gilValue (total : number) : option number :=
  option_map (fun v => Num (inject_Z v)) (property valueToGil total).

(** ToNumber of what [gilValue] or a recursive call handed back. *)
Definition result_to_number (r : option number) : number :=
  match r with
  | None => NaN
  | Some n => n
  end.

Fixpoint calculateOptionEV_rec (fuel : nat) (optionValues : list value)
    (availableNumbers : list Z) : option number :=
  match fuel with
  | O => Some NaN
  | S fuel' =>
    if Nat.eqb (nullCount optionValues) 0 then
      gilValue (total_of optionValues)
    else
      match indexOf_null optionValues with
      | None => Some NaN  (* excluded: a null was counted just above *)
      | Some nullIndex =>
        let '(evTotal, combinationCount) :=
          fold_left
            (fun '(evTotal, combinationCount) i =>
               let number := nth i availableNumbers 0 in
               let newOptionValues :=
                 array_set optionValues nullIndex (Int number) in
               let newAvailableNumbers := remove_at i availableNumbers in
               let ev := calculateOptionEV_rec fuel' newOptionValues
                           newAvailableNumbers in
               (num_add evTotal (result_to_number ev), S combinationCount))
            (seq 0 (length availableNumbers))
            (Num 0, O) in
        Some (num_div evTotal (Num (inject_Z (Z.of_nat combinationCount))))
      end
  end.

Definition calculateOptionEV (optionValues : list value)
    (availableNumbers : list Z) : option number :=
  calculateOptionEV_rec (S (nullCount optionValues)) optionValues
    availableNumbers.

End Legacy.

(* ================================================================== *)
(** ** validation.js *)

Module Validation.

Definition show_Z (z : Z) : string := NilZero.string_of_int (Z.to_int z).

(** [parseInt(value, 10)] of an integer is that integer, so the test is
    the range check alone. *)
Definition isValidNumber (value : Z) : bool :=
  let num := value in
  (1 <=? num) && (num <=? 9).






(** [/[0-9]/] on one character. *)
Definition is_digit (c : Ascii.ascii) : bool :=
  (48 <=? Ascii.nat_of_ascii c)%nat && (Ascii.nat_of_ascii c <=? 57)%nat.

(** [input.replace(/[^0-9]/g, '')] *)
Fixpoint sanitizeInput (input : string) : string :=
  match input with
  | EmptyString => EmptyString
  | String c rest =>
      if is_digit c then String c (sanitizeInput rest)
      else sanitizeInput rest
  end.

(** The digits read so far by [parseInt], most significant first. *)
Fixpoint parse_digits (acc : option Z) (s : string) : option Z :=
  match s with
  | EmptyString => acc
  | String c rest =>
      if is_digit c then
        let d := Z.of_nat (Ascii.nat_of_ascii c) - 48 in
        parse_digits (Some (match acc with
                            | Some n => 10 * n + d
                            | None => d
                            end)) rest
      else acc
  end.

(** [parseInt(s, 10)] for a string that starts neither with white space nor
    with a sign: the value of the leading digits, [None] (NaN) without any. *)
Definition parseInt (s : string) : option Z := parse_digits None s.

Definition validateAndCleanInput (value : string) : string :=
  let cleanedValue := sanitizeInput value in
  if negb (String.eqb cleanedValue "") then
    match parseInt cleanedValue with
    | None => "NaN"%string   (* NaN passes both comparisons *)
    | Some numValue =>
        if (numValue <? 1) || (9 <? numValue) then ""%string
        else show_Z numValue
    end
  else cleanedValue.

Record KeyboardEvent : Type := mkKeyboardEvent {
  keyCode : Z;
  ctrlKey : bool;
  shiftKey : bool
}.

Definition isAllowedKey (event : KeyboardEvent) : bool :=
  let allowedKeyCodes := [8; 9; 27; 13; 46; 37; 38; 39; 40] in
  if includes allowedKeyCodes (keyCode event) then true
  else
    let ctrlKeys := [65; 67; 86; 88] in
    if includes ctrlKeys (keyCode event) && ctrlKey event then true
    else if shiftKey event
            || ((keyCode event <? 49) || (57 <? keyCode event)) then false
    else true.

(** [board.filter(value => value !== null).length >= minimumRequired];
    [None] stands for a call that leaves the second argument out. *)
Definition hasEnoughInputs (board : list (option Z))
    (minimumRequired : option Z) : bool :=
  let minimumRequired :=
    match minimumRequired with Some m => m | None => 4 end in
  let filledCount := length (GameLogic.takenNumbers board) in
  minimumRequired <=? Z.of_nat filledCount.



End Validation.

(* ================================================================== *)
(** ** uiManager.js: the parts that do not touch the page *)

Module UIManager.




(** [preventInvalidInput]: [true] when [event.preventDefault()] is called. *)
Definition preventInvalidInput (event : Validation.KeyboardEvent) : bool :=
  let keyCode := Validation.keyCode event in
  let ctrlKey := Validation.ctrlKey event in
  if includes [8; 9; 27; 13; 46; 37; 38; 39; 40] keyCode
     || ((keyCode =? 65) && ctrlKey)
     || ((keyCode =? 67) && ctrlKey)
     || ((keyCode =? 86) && ctrlKey)
     || ((keyCode =? 88) && ctrlKey)
  then false
  else if Validation.shiftKey event || ((keyCode <? 49) || (57 <? keyCode))
  then true
  else false.

End UIManager.

Import GameLogic.

(* ================================================================== *)
(** ** Notions the specification uses *)

Module Spec.

(** Equality of numbers as JavaScript values: the same rational, or NaN on
    both sides. *)
Definition num_eq (a b : number) : Prop :=
  match a, b with
  | NaN, NaN => True
  | Num x, Num y => x == y
  | _, _ => False
  end.

Definition is_num (a : number) : Prop :=
  match a with Num _ => True | NaN => False end.

Definition unNum (a : number) : Q :=
  match a with Num q => q | NaN => 0%Q end.

(** The payout table as the specification lists it. *)
Definition payout (sum : Z) : Z :=
  match sum with
  | 6 => 10000 | 7 => 36 | 8 => 720 | 9 => 360 | 10 => 80 | 11 => 252
  | 12 => 108 | 13 => 72 | 14 => 54 | 15 => 180 | 16 => 72 | 17 => 180
  | 18 => 119 | 19 => 36 | 20 => 306 | 21 => 1080 | 22 => 144
  | 23 => 1800 | 24 => 3600
  | _ => 0
  end.

(** All sequences of [k] picks out of [l]. *)
Fixpoint tuples (k : nat) (l : list Z) : list (list Z) :=
  match k with
  | O => [[]]
  | S k' => flat_map (fun x => map (cons x) (tuples k' l)) l
  end.

Fixpoint distinct (a : list Z) : bool :=
  match a with
  | [] => true
  | x :: t => negb (includes t x) && distinct t
  end.

(** The ordered assignments of [k] distinct digits out of [l]. *)
Definition assignments (k : nat) (l : list Z) : list (list Z) :=
  filter distinct (tuples k l).

(** The line once its unrevealed slots, from left to right, hold the digits
    of the assignment. *)
Fixpoint fill (lineValues : list value) (a : list Z) : list value :=
  match lineValues with
  | [] => []
  | Null :: t =>
      match a with
      | d :: a' => Int d :: fill t a'
      | [] => Null :: fill t []
      end
  | v :: t => v :: fill t a
  end.

(** Arithmetic mean of a list of numbers. *)
Definition average (l : list number) : number :=
  num_div (fold_left num_add l (Num 0))
          (Num (inject_Z (Z.of_nat (length l)))).

(** [calculateOptionEV] seen through what it depends on: how many slots
    are open, the sum so far, and the digits left. *)
Fixpoint ev (k : nat) (s : number) (av : list Z) : number :=
  match k with
  | O => gilValue s
  | S k' =>
      average
        (map (fun i => ev k' (num_add s (Num (inject_Z (nth i av 0))))
                          (remove_at i av))
             (seq 0 (length av)))
  end.

Fixpoint sum_values (l : list value) : number :=
  match l with
  | [] => Num 0
  | v :: t => num_add (to_number v) (sum_values t)
  end.

Definition Qsum (l : list Q) : Q := fold_right Qplus 0%Q l.

Definition Zsum (l : list Z) : Z := fold_right Z.add 0 l.

(** Payout of the line whose revealed values add up to [s] once the digits
    of [a] are added. *)
Definition leaf (s : number) (a : list Z) : Q :=
  unNum (gilValue (num_add s (Num (inject_Z (Zsum a))))).

(** Expected value of one line of a board. *)
Definition lineEV (board : list (option Z)) (line : list nat) : number :=
  calculateOptionEV (lineValues board line) (availableNumbers board).

(** The lines that pass through position [p]. *)
Definition lines_through (p : nat) : list (list nat) :=
  filter (fun line => existsb (Nat.eqb p) line) options.

Definition cellScore (board : list (option Z)) (p : nat) : number :=
  fold_left num_add (map (lineEV board) (lines_through p)) (Num 0).

(** maxEV of the line ranking. *)
Definition baseline (board : list (option Z)) : number :=
  Math_max (map (lineEV board) options).

Definition gain (board : list (option Z)) (p : nat) : number :=
  num_sub (cellScore board p) (baseline board).

Definition unrevealed (board : list (option Z)) : list nat :=
  filter (fun p => is_null (array_get board p)) (seq 0 9).

Definition maxGain (board : list (option Z)) : number :=
  Math_max (map (gain board) (unrevealed board)).

(** |x - y| < 0.01 *)
Definition within_epsilon (x y : number) : bool :=
  match x, y with
  | Num a, Num b => negb (Qle_bool (1 # 100) (Qabs (a - b)))
  | _, _ => false
  end.

(** The unrevealed positions whose gain is within epsilon of the best. *)
Definition tied (board : list (option Z)) : list nat :=
  filter (fun p => within_epsilon (gain board p) (maxGain board))
         (unrevealed board).

Definition is_center (p : nat) : bool := Nat.eqb p 4.


(** A string of decimal digits only. *)
Fixpoint all_digits (s : string) : bool :=
  match s with
  | EmptyString => true
  | String c rest => Validation.is_digit c && all_digits rest
  end.


(** The digits a line shows, in slot order. *)
Fixpoint digits (l : list value) : list Z :=
  match l with
  | [] => []
  | Int z :: t => z :: digits t
  | _ :: t => digits t
  end.

(** A line of three slots, each null or a digit, whose digits together with
    the available ones are pairwise different digits of 1..9. *)
Definition well_formed (lineValues : list value) (available : list Z)
  : Prop :=
  length lineValues = 3%nat /\
  Forall (fun v => v <> Undefined) lineValues /\
  NoDup (digits lineValues ++ available) /\
  Forall (fun z => 1 <= z <= 9) (digits lineValues ++ available).


Definition board_1_2 : list (option Z) :=
  [Some 1; Some 2; None; None; None; None; None; None; None].

Definition board_diagonals : list (option Z) :=
  [Some 9; None; Some 5; None; Some 1; None; Some 7; None; Some 3].

Definition board_7 : list (option Z) :=
  [Some 7; None; None; None; None; None; None; None; None].
Definition is_corner (p : nat) : bool := existsb (Nat.eqb p) [0; 2; 6; 8]%nat.
Definition is_edge (p : nat) : bool := existsb (Nat.eqb p) [1; 3; 5; 7]%nat.


(** *** The specification's notions in binary64 *)

(** The recursion of the specification's algorithm, for any kind of number:
    with no open slot the value of the complete line, otherwise the mean,
    over the available digits in list order, of the value once the digit is
    added to the sum and removed from the list. *)
Section Nested.

Variable N : Type.
Variable leaf : Z -> N.
Variable mean : list N -> N.

Fixpoint nested (k : nat) (sum : Z) (available : list Z) : N :=
  match k with
  | O => leaf sum
  | S k' =>
      mean (map (fun i => nested k' (sum + nth i available 0)
                            (remove_at i available))
                (seq 0 (length available)))
  end.

End Nested.

(** Mean of doubles: the sum from the left, divided by the count. *)
Definition mean64 (l : list Double.double) : Double.double :=
  Double.div (fold_left Double.add l Double.zero)
             (Double.of_Z (Z.of_nat (length l))).

(** The same mean with the count built by adding 1 per element, as a
    loop does. *)
Definition mean_loop (l : list Double.double) : Double.double :=
  Double.div (fold_left Double.add l Double.zero)
             (fold_left (fun count _ => Double.add count (Double.of_Z 1))
                        l Double.zero).

Definition payout64 (sum : Z) : Double.double := Double.of_Z (payout sum).

Definition nested64 : nat -> Z -> list Z -> Double.double :=
  nested Double.double payout64 mean64.

Definition nested_loop : nat -> Z -> list Z -> Double.double :=
  nested Double.double payout64 mean_loop.

(** Mean of rationals, and the recursion without rounding. *)
Definition Qmean (l : list Q) : Q :=
  (Qsum l / inject_Z (Z.of_nat (length l)))%Q.

Definition nested_exact : nat -> Z -> list Z -> Q :=
  nested Q (fun sum => inject_Z (payout sum)) Qmean.

(** Number of unrevealed slots of a line. *)
Definition open_slots (lineValues : list value) : nat :=
  length (filter (fun v => match v with Null => true | _ => false end)
                 lineValues).

(** The uniform average of payout over every ordered assignment of distinct
    available digits to the unrevealed slots. *)
Definition uniform_average (lineValues : list value) (available : list Z)
  : Q :=
  Qmean (map (fun a => inject_Z (payout (Zsum (digits (fill lineValues a)))))
             (assignments (open_slots lineValues) available)).

Definition digit (z : Z) : Prop := 1 <= z <= 9.

(** Line values as the specification has them: three slots, each unrevealed
    or a digit of 1..9. *)
Definition line_values (lineValues : list value) : Prop :=
  length lineValues = 3%nat /\
  Forall (fun v => v = Null \/ exists d, v = Int d /\ digit d) lineValues.

(** A board as the specification has it, but for the repetition of digits:
    nine cells, each unrevealed or a digit of 1..9. *)
Definition digit_board (board : list (option Z)) : Prop :=
  length board = 9%nat /\ forall d, In (Some d) board -> digit d.

Definition cell (board : list (option Z)) (p : nat) : option Z :=
  nth p board None.

Definition revealed (board : list (option Z)) : list Z :=
  flat_map (fun c => match c with Some d => [d] | None => [] end) board.

(** The eight lines: rows, columns, the two diagonals. *)
Definition lines : list (list nat) :=
  map (fun r => [3 * r; 3 * r + 1; 3 * r + 2]%nat) [0; 1; 2]%nat ++
  map (fun c => [c; c + 3; c + 6]%nat) [0; 1; 2]%nat ++
  [[0; 4; 8]; [2; 4; 6]]%nat.

(** The digits of 1..9 not revealed on the board, in increasing order. *)
Definition available_digits (board : list (option Z)) : list Z :=
  filter (fun d => negb (existsb (Z.eqb d) (revealed board)))
         (map Z.of_nat (seq 1 9)).

Definition line_open (board : list (option Z)) (line : list nat) : nat :=
  length (filter (fun p => match cell board p with
                           | None => true
                           | Some _ => false
                           end) line).

Definition line_sum (board : list (option Z)) (line : list nat) : Z :=
  Zsum (flat_map (fun p => match cell board p with
                           | Some d => [d]
                           | None => []
                           end) line).

(** Expected value of a line of a board, in binary64. *)
Definition expected_value (board : list (option Z)) (line : list nat)
  : Double.double :=
  nested64 (line_open board line) (line_sum board line)
           (available_digits board).

Definition lines_of (p : nat) : list (list nat) :=
  filter (fun line => existsb (Nat.eqb p) line) lines.

Definition maxEV64 (board : list (option Z)) : Double.double :=
  Double.Math_max (map (expected_value board) lines).

(** Gain of a position: the EVs of the lines through it, added up, minus the
    best line EV of the board. *)
Definition gain64 (board : list (option Z)) (p : nat) : Double.double :=
  Double.sub
    (fold_left Double.add (map (expected_value board) (lines_of p))
               Double.zero)
    (maxEV64 board).

Definition open_positions (board : list (option Z)) : list nat :=
  filter (fun p => match cell board p with None => true | Some _ => false end)
         (seq 0 9).

Definition maxGain64 (board : list (option Z)) : Double.double :=
  Double.Math_max (map (gain64 board) (open_positions board)).

(** One hundredth, rounded to a double. *)
Definition hundredth : Double.double :=
  Double.div (Double.of_Z 1) (Double.of_Z 100).

(** |x - y| < 0.01 *)
Definition near64 (x y : Double.double) : bool :=
  Double.lt (Double.Math_abs (Double.sub x y)) hundredth.

Definition tied64 (board : list (option Z)) : list nat :=
  filter (fun p => near64 (gain64 board p) (maxGain64 board))
         (open_positions board).

(** Expected value of one line of a board as calculateBestOptions computes
    it, and the greatest of the eight. *)
Definition lineEV64 (board : list (option Z)) (line : list nat)
  : Double.double :=
  GameLogic64.calculateOptionEV (lineValues board line)
                                (availableNumbers board).

Definition baseline64 (board : list (option Z)) : Double.double :=
  Double.Math_max (map (lineEV64 board) options).


(** Doubles that are zero or above, +Infinity included. *)
Definition nonneg64 (x : Double.double) : Prop :=
  match x with
  | S754_zero false | S754_finite false _ _ | S754_infinity false => True
  | _ => False
  end.

(** The order of the doubles, NaN apart, as a lexicographic order. *)
Definition rank (x : Double.double) : Z * Z * Z :=
  match x with
  | S754_infinity true => (-2, 0, 0)
  | S754_finite true m e => (-1, - e, Z.neg m)
  | S754_zero _ => (0, 0, 0)
  | S754_nan => (0, 0, 0)
  | S754_finite false m e => (1, e, Z.pos m)
  | S754_infinity false => (2, 0, 0)
  end.

Definition lex_lt (a b : Z * Z * Z) : Prop :=
  let '(a1, a2, a3) := a in
  let '(b1, b2, b3) := b in
  a1 < b1 \/ (a1 = b1 /\ (a2 < b2 \/ (a2 = b2 /\ a3 < b3))).

(** The lines and the doubles of the examples. *)
Definition board_valid_5 : list (option Z) :=
  [Some 1; Some 6; Some 2; Some 3; Some 7; None; None; None; None].

Definition three_open : list value := [Null; Null; Null].
Definition digits_1254 : list Z := [1; 2; 5; 4].

Definition d272 : Double.double := S754_finite false 4785074604081152 (-44).
Definition d272_next : Double.double :=
  S754_finite false 4785074604081153 (-44).

End Spec.

Import Spec.

(* ================================================================== *)
(** ** Numbers *)

#[global] Instance num_eq_Equivalence : Equivalence num_eq.
Proof.
  split.
  - intros [|x]; simpl; auto with qarith.
  - intros [|x] [|y]; simpl; auto with qarith.
  - intros [|x] [|y] [|z]; simpl; try tauto. apply Qeq_trans.
Qed.

#[global] Instance num_add_Proper :
  Proper (num_eq ==> num_eq ==> num_eq) num_add.
Proof.
  intros [|a] [|a'] Ha [|b] [|b'] Hb; simpl in *; try tauto.
  now rewrite Ha, Hb.
Qed.

Lemma num_add_comm a b : num_eq (num_add a b) (num_add b a).
Proof. destruct a, b; simpl; auto. apply Qplus_comm. Qed.

Lemma num_add_assoc a b c :
  num_eq (num_add a (num_add b c)) (num_add (num_add a b) c).
Proof. destruct a, b, c; simpl; auto. apply Qplus_assoc. Qed.

Lemma num_add_0_l a : num_eq (num_add (Num 0) a) a.
Proof. destruct a; simpl; auto. apply Qplus_0_l. Qed.

Lemma num_add_0_r a : num_eq (num_add a (Num 0)) a.
Proof. destruct a; simpl; auto. apply Qplus_0_r. Qed.

Lemma Qeq_bool_inject_Z a b :
  Qeq_bool (inject_Z a) (inject_Z b) = (a =? b).
Proof.
  unfold Qeq_bool, inject_Z; simpl. now rewrite !Z.mul_1_r.
Qed.

Lemma Qeq_bool_proper q q' k : q == q' -> Qeq_bool q k = Qeq_bool q' k.
Proof.
  intros H. apply eq_true_iff_eq. rewrite !Qeq_bool_iff.
  now rewrite H.
Qed.

(* ================================================================== *)
(** ** gilValue *)

Lemma property_proper obj s s' :
  num_eq s s' -> property obj s = property obj s'.
Proof.
  destruct s as [|q], s' as [|q']; simpl; try tauto.
  intros H. f_equal. induction obj as [|kv obj IH]; simpl; auto.
  rewrite (Qeq_bool_proper q q' (inject_Z (fst kv)) H), IH. reflexivity.
Qed.

Lemma gilValue_proper s s' : num_eq s s' -> gilValue s = gilValue s'.
Proof.
  intros H. unfold gilValue. now rewrite (property_proper valueToGil s s' H).
Qed.

Lemma property_inject_Z obj z :
  property obj (Num (inject_Z z)) =
  option_map snd (find (fun kv => z =? fst kv) obj).
Proof.
  simpl. f_equal. induction obj as [|kv obj IH]; simpl; auto.
  now rewrite Qeq_bool_inject_Z, IH.
Qed.

Lemma valueToGil_payout z :
  option_map snd (find (fun kv => z =? fst kv) valueToGil) =
  if (6 <=? z) && (z <=? 24) then Some (payout z) else None.
Proof.
  destruct ((6 <=? z) && (z <=? 24)) eqn:E.
  - apply andb_true_iff in E. destruct E as [E1 E2].
    apply Z.leb_le in E1, E2.
    assert (H : z = 6 \/ z = 7 \/ z = 8 \/ z = 9 \/ z = 10 \/ z = 11 \/
                z = 12 \/ z = 13 \/ z = 14 \/ z = 15 \/ z = 16 \/ z = 17 \/
                z = 18 \/ z = 19 \/ z = 20 \/ z = 21 \/ z = 22 \/ z = 23 \/
                z = 24) by lia.
    repeat (destruct H as [H|H]; [subst z; reflexivity|]).
    subst z; reflexivity.
  - assert (H : z < 6 \/ 24 < z).
    { apply andb_false_iff in E. destruct E as [E|E];
        apply Z.leb_gt in E; lia. }
    unfold valueToGil; simpl.
    repeat match goal with
           | |- context [z =? ?k] =>
               replace (z =? k) with false by (symmetry; apply Z.eqb_neq; lia)
           end.
    reflexivity.
Qed.

Lemma payout_outside z : ~ (6 <= z <= 24) -> payout z = 0.
Proof.
  intros H. destruct z as [|p|p]; try reflexivity.
  do 5 (destruct p as [p|p|]; try reflexivity; try lia).
Qed.

Lemma payout_nonzero z : 6 <= z <= 24 -> payout z <> 0.
Proof.
  intros H.
  assert (H' : z = 6 \/ z = 7 \/ z = 8 \/ z = 9 \/ z = 10 \/ z = 11 \/
               z = 12 \/ z = 13 \/ z = 14 \/ z = 15 \/ z = 16 \/ z = 17 \/
               z = 18 \/ z = 19 \/ z = 20 \/ z = 21 \/ z = 22 \/ z = 23 \/
               z = 24) by lia.
  repeat (destruct H' as [H'|H']; [subst z; discriminate|]).
  subst z; discriminate.
Qed.

Lemma gilValue_payout z : gilValue (Num (inject_Z z)) = Num (inject_Z (payout z)).
Proof.
  unfold gilValue. rewrite property_inject_Z, valueToGil_payout.
  destruct ((6 <=? z) && (z <=? 24)) eqn:E.
  - apply andb_true_iff in E. destruct E as [E1 E2].
    apply Z.leb_le in E1, E2.
    destruct (Z.eqb_spec (payout z) 0) as [H0|H0]; auto.
    exfalso. revert H0. apply payout_nonzero. lia.
  - rewrite payout_outside; auto.
    intros [H1 H2]. apply Z.leb_le in H1, H2. rewrite H1, H2 in E.
    discriminate.
Qed.

Lemma gilValue_is_num s : exists q, gilValue s = Num q.
Proof.
  unfold gilValue. destruct (property valueToGil s) as [v|]; eauto.
  destruct (v =? 0); eauto.
Qed.

(** C2: gilValue returns the table value on 6..24 and 0 everywhere else,
    in particular at 5 and at 25. *)
Theorem gilValue_matches_table :
  (forall sum : Z, gilValue (Num (inject_Z sum)) = Num (inject_Z (payout sum)))
  /\ (forall sum : Z, ~ (6 <= sum <= 24) ->
        gilValue (Num (inject_Z sum)) = Num 0)
  /\ gilValue (Num 5) = Num 0 /\ gilValue (Num 25) = Num 0
  /\ map (fun sum => gilValue (Num (inject_Z sum)))
         [6; 7; 8; 9; 10; 11; 12; 13; 14; 15; 16; 17; 18; 19; 20; 21; 22;
          23; 24]
     = map (fun v => Num (inject_Z v))
         [10000; 36; 720; 360; 80; 252; 108; 72; 54; 180; 72; 180; 119; 36;
          306; 1080; 144; 1800; 3600].
Proof.
  split; [exact gilValue_payout|].
  split.
  - intros sum H. rewrite gilValue_payout, payout_outside; auto.
  - repeat split; reflexivity.
Qed.

Lemma gilValue_matches_table_witness :
  ~ (6 <= 25 <= 24) /\ gilValue (Num (inject_Z 25)) = Num 0.
Proof.
  split; [lia|].
  apply (proj1 (proj2 gilValue_matches_table)). lia.
Defined.

(* ================================================================== *)
(** ** calculateOptionEV: the loop and the recursion *)

Lemma loop_pairs (f : nat -> number) idx t c :
  fold_left (fun '(evTotal, combinationCount) i =>
               (num_add evTotal (f i), S combinationCount)) idx (t, c)
  = (fold_left num_add (map f idx) t, (c + length idx)%nat).
Proof.
  revert t c. induction idx as [|i idx IH]; intros t c; simpl.
  - f_equal. lia.
  - rewrite IH. f_equal. lia.
Qed.

Lemma calculateOptionEV_rec_S fuel ov av :
  calculateOptionEV_rec (S fuel) ov av =
  if Nat.eqb (nullCount ov) 0 then gilValue (total_of ov)
  else match indexOf_null ov with
       | None => NaN
       | Some j =>
           average
             (map (fun i => calculateOptionEV_rec fuel
                              (array_set ov j (Int (nth i av 0)))
                              (remove_at i av))
                  (seq 0 (length av)))
       end.
Proof.
  cbn [calculateOptionEV_rec].
  destruct (Nat.eqb (nullCount ov) 0); [reflexivity|].
  destruct (indexOf_null ov) as [j|]; [|reflexivity].
  pose proof (loop_pairs
    (fun i => calculateOptionEV_rec fuel (array_set ov j (Int (nth i av 0)))
                (remove_at i av)) (seq 0 (length av)) (Num 0) O) as L.
  cbv beta zeta in L |- *. rewrite L.
  unfold average. now rewrite length_map, length_seq.
Qed.

Lemma fold_total l a :
  num_eq (fold_left (fun sum val => num_add sum (to_number val)) l a)
         (num_add a (sum_values l)).
Proof.
  revert a. induction l as [|v l IH]; intros a; simpl.
  - symmetry. apply num_add_0_r.
  - rewrite IH. symmetry. apply num_add_assoc.
Qed.

Lemma total_of_sum_values l : num_eq (total_of l) (sum_values l).
Proof.
  unfold total_of. rewrite fold_total. apply num_add_0_l.
Qed.

Lemma nullCount_cons v t :
  nullCount (v :: t) = ((if is_null v then 1 else 0) + nullCount t)%nat.
Proof. unfold nullCount; simpl. now destruct (is_null v). Qed.

Lemma indexOf_null_some ov :
  nullCount ov <> O -> exists j, indexOf_null ov = Some j.
Proof.
  induction ov as [|v t IH]; [now intros []|].
  rewrite nullCount_cons. simpl. destruct (is_null v); eauto.
  intros H. destruct (IH H) as [j ->]. simpl. eauto.
Qed.

Lemma fill_first_null ov j d :
  indexOf_null ov = Some j ->
  nullCount (array_set ov j (Int d)) = pred (nullCount ov) /\
  num_eq (sum_values (array_set ov j (Int d)))
         (num_add (sum_values ov) (Num (inject_Z d))).
Proof.
  revert j. induction ov as [|v t IH]; intros j; [discriminate|].
  simpl indexOf_null. destruct (is_null v) eqn:E.
  - intros [= <-]. destruct v; try discriminate.
    cbn [array_set sum_values to_number].
    rewrite !nullCount_cons; cbn [is_null]. split; [reflexivity|].
    rewrite num_add_0_l. apply num_add_comm.
  - destruct (indexOf_null t) as [j'|]; [|discriminate].
    intros [= <-]. destruct (IH j' eq_refl) as [Hc Hs].
    cbn [array_set sum_values].
    rewrite !nullCount_cons, E, Hc. split; [reflexivity|].
    rewrite Hs. apply num_add_assoc.
Qed.

Lemma ev_proper k s s' av : num_eq s s' -> ev k s av = ev k s' av.
Proof.
  revert s s' av. induction k as [|k IH]; intros s s' av H; simpl.
  - now apply gilValue_proper.
  - f_equal. apply map_ext. intros i. apply IH. now rewrite H.
Qed.

Lemma calculateOptionEV_rec_ev fuel ov av :
  (nullCount ov < fuel)%nat ->
  calculateOptionEV_rec fuel ov av = ev (nullCount ov) (sum_values ov) av.
Proof.
  revert ov av. induction fuel as [|fuel IH]; intros ov av Hlt; [lia|].
  rewrite calculateOptionEV_rec_S.
  destruct (nullCount ov) as [|k] eqn:E; simpl.
  - apply gilValue_proper, total_of_sum_values.
  - destruct (indexOf_null_some ov) as [j Hj]; [lia|]. rewrite Hj.
    f_equal. apply map_ext. intros i.
    destruct (fill_first_null ov j (nth i av 0) Hj) as [Hc Hs].
    rewrite E in Hc; simpl in Hc.
    rewrite IH by lia. rewrite Hc. now apply ev_proper.
Qed.

(** The recursion never runs out of fuel: the function is the one the source
    defines by recursion on the open slots. *)
Lemma calculateOptionEV_ev ov av :
  calculateOptionEV ov av = ev (nullCount ov) (sum_values ov) av.
Proof. apply calculateOptionEV_rec_ev. lia. Qed.

Lemma calculateOptionEV_unfold ov av :
  calculateOptionEV ov av =
  if Nat.eqb (nullCount ov) 0 then gilValue (total_of ov)
  else match indexOf_null ov with
       | None => NaN
       | Some j =>
           average
             (map (fun i => calculateOptionEV
                              (array_set ov j (Int (nth i av 0)))
                              (remove_at i av))
                  (seq 0 (length av)))
       end.
Proof.
  unfold calculateOptionEV at 1. rewrite calculateOptionEV_rec_S.
  destruct (Nat.eqb (nullCount ov) 0) eqn:E; [reflexivity|].
  apply Nat.eqb_neq in E.
  destruct (indexOf_null ov) as [j|] eqn:Hj; [|reflexivity].
  f_equal. apply map_ext. intros i.
  destruct (fill_first_null ov j (nth i av 0) Hj) as [Hc _].
  rewrite calculateOptionEV_ev. apply calculateOptionEV_rec_ev.
  rewrite Hc. lia.
Qed.






(* ================================================================== *)
(** ** Sums and averages of numbers *)

Lemma fold_left_num L a :
  Forall is_num L ->
  fold_left num_add L (Num a) = Num (fold_left Qplus (map unNum L) a).
Proof.
  revert a. induction L as [|x L IH]; intros a H; simpl; [reflexivity|].
  inversion H as [|? ? Hx HL]; subst.
  destruct x as [|q]; [contradiction|]. simpl. now apply IH.
Qed.

Lemma fold_left_Qplus l a : fold_left Qplus l a == a + Qsum l.
Proof.
  revert a. induction l as [|x l IH]; intros a; simpl; [ring|].
  rewrite IH. ring.
Qed.

Lemma inject_nat_nonzero n : n <> O -> ~ inject_Z (Z.of_nat n) == 0.
Proof.
  intros Hn H. change 0%Q with (inject_Z 0) in H.
  apply Qeq_bool_iff in H. rewrite Qeq_bool_inject_Z in H.
  apply Z.eqb_eq in H. lia.
Qed.

Lemma average_num L :
  Forall is_num L -> L <> [] ->
  exists q, average L = Num q /\
            q * inject_Z (Z.of_nat (length L)) == Qsum (map unNum L).
Proof.
  intros HL Hne. unfold average. rewrite fold_left_num by assumption.
  assert (Hn : ~ inject_Z (Z.of_nat (length L)) == 0).
  { apply inject_nat_nonzero. destruct L; [congruence|discriminate]. }
  simpl num_div.
  destruct (Qeq_bool (inject_Z (Z.of_nat (length L))) 0) eqn:E.
  - apply Qeq_bool_iff in E. contradiction.
  - eexists; split; [reflexivity|]. rewrite fold_left_Qplus. now field.
Qed.





(* ================================================================== *)
(** ** Ordered assignments without replacement *)


Lemma filter_map_cons {A B} (p : B -> bool) (f : A -> B) l :
  filter p (map f l) = map f (filter (fun a => p (f a)) l).
Proof.
  induction l as [|x l IH]; simpl; [reflexivity|].
  destruct (p (f x)); simpl; now rewrite IH.
Qed.

Lemma filter_andb {A} (p q : A -> bool) l :
  filter (fun a => p a && q a) l = filter q (filter p l).
Proof.
  induction l as [|x l IH]; simpl; [reflexivity|].
  destruct (p x); simpl; [destruct (q x)|]; now rewrite IH.
Qed.









Lemma length_remove_at {A} (av : list A) i :
  (i < length av)%nat -> length (remove_at i av) = pred (length av).
Proof.
  revert i. induction av as [|x t IH]; intros i H; [simpl in H; lia|].
  destruct i as [|i]; simpl; auto. simpl in H.
  rewrite IH by lia. destruct t; simpl in *; lia.
Qed.






(* ================================================================== *)
(** ** The recursion computes the uniform average *)



Lemma fill_sum lv :
  forall a, length a = nullCount lv ->
  num_eq (sum_values (fill lv a))
         (num_add (sum_values lv) (Num (inject_Z (Zsum a)))).
Proof.
  induction lv as [|v t IH]; intros a Ha.
  - destruct a; [|discriminate]. simpl. ring.
  - rewrite nullCount_cons in Ha.
    destruct v as [| |z]; cbn [is_null] in Ha.
    + cbn [fill sum_values to_number]. reflexivity.
    + destruct a as [|d a']; [discriminate|]. simpl in Ha.
      specialize (IH a'). cbn [fill sum_values to_number Zsum fold_right].
      fold (Zsum a').
      destruct (sum_values (fill t a')), (sum_values t); simpl in *;
        try tauto; try (exfalso; apply IH; lia).
      rewrite IH by lia. rewrite inject_Z_plus. ring.
    + specialize (IH a Ha). cbn [fill sum_values to_number].
      destruct (sum_values (fill t a)), (sum_values t); simpl in *;
        try tauto.
      rewrite IH. ring.
Qed.



(* ================================================================== *)
(** ** Every line of a board has a finite expected value *)

Lemma ev_is_num k : forall s av, (k <= length av)%nat -> is_num (ev k s av).
Proof.
  induction k as [|k IH]; intros s av Hk.
  - simpl. destruct (gilValue_is_num s) as [q ->]. exact I.
  - cbn [ev].
    destruct (average_num
      (map (fun i => ev k (num_add s (Num (inject_Z (nth i av 0))))
                        (remove_at i av)) (seq 0 (length av))))
      as [q [-> _]]; [| |exact I].
    + apply Forall_forall. intros x Hx. apply in_map_iff in Hx.
      destruct Hx as [i [<- Hi]]. apply in_seq in Hi. apply IH.
      rewrite length_remove_at by lia. lia.
    + destruct av; [simpl in Hk; lia|discriminate].
Qed.

Lemma filter_all {A} (p : A -> bool) l :
  (forall x, p x = true) -> filter p l = l.
Proof.
  intros H. induction l as [|x l IH]; simpl; [reflexivity|].
  now rewrite H, IH.
Qed.

Lemma filter_neq_length (l : list Z) y :
  NoDup l ->
  (length l <= S (length (filter (fun x => negb (x =? y)%Z) l)))%nat.
Proof.
  induction l as [|x l IH]; intros H; simpl; [lia|].
  inversion H as [|? ? Hx Hl]; subst.
  destruct (Z.eqb_spec x y) as [->|Hxy]; simpl.
  - assert (E : filter (fun x => negb (x =? y)) l = l).
    { clear -Hx. induction l as [|z l IHl]; simpl; [reflexivity|].
      destruct (Z.eqb_spec z y) as [->|]; simpl.
      - exfalso. apply Hx. now left.
      - f_equal. apply IHl. intros Hin. apply Hx. now right. }
    rewrite E. lia.
  - specialize (IH Hl). lia.
Qed.

Lemma filter_notin_length (t l : list Z) :
  NoDup l ->
  (length l <= length (filter (fun x => negb (includes t x)) l) + length t)%nat.
Proof.
  revert l. induction t as [|y t IH]; intros l Hl.
  - assert (E : filter (fun x => negb (includes [] x)) l = l)
      by (apply filter_all; reflexivity).
    rewrite E. simpl. lia.
  - rewrite (filter_ext _ (fun x => negb (x =? y) && negb (includes t x))).
    2:{ intros x. unfold includes. simpl. now rewrite negb_orb. }
    rewrite filter_andb.
    pose proof (filter_neq_length l y Hl) as H1.
    pose proof (IH _ (NoDup_filter (fun x => negb (x =? y)) Hl)) as H2.
    simpl. lia.
Qed.

Lemma allNumbers_NoDup : NoDup allNumbers.
Proof.
  unfold allNumbers.
  repeat (constructor; [simpl; intros H; repeat (destruct H as [H|H]; [discriminate|]); exact H|]).
  constructor.
Qed.

Lemma availableNumbers_length board :
  (9 <= length (availableNumbers board) + length (takenNumbers board))%nat.
Proof.
  unfold availableNumbers.
  exact (filter_notin_length (takenNumbers board) allNumbers allNumbers_NoDup).
Qed.


Lemma nullCount_lineValues_le3 board line :
  In line options -> (nullCount (lineValues board line) <= 3)%nat.
Proof.
  intros H. unfold nullCount.
  etransitivity; [apply filter_length_le|].
  unfold lineValues. rewrite length_map.
  unfold options in H. simpl in H.
  repeat (destruct H as [<-|H]; [simpl; lia|]). destruct H.
Qed.

Lemma takenNumbers_cons c t :
  length (takenNumbers (c :: t))
  = (match c with Some _ => 1 | None => 0 end + length (takenNumbers t))%nat.
Proof. destruct c; reflexivity. Qed.

Lemma nullCount_lineValues_nine board line :
  length board = 9%nat -> In line options ->
  (nullCount (lineValues board line) + length (takenNumbers board) <= 9)%nat.
Proof.
  intros Hlen H.
  do 9 (destruct board as [|? board]; [discriminate|]).
  destruct board; [|discriminate].
  unfold options in H. simpl in H.
  repeat (destruct H as [<-|H];
    [unfold lineValues; cbn [map array_get nth_error];
     rewrite !nullCount_cons, !takenNumbers_cons;
     repeat match goal with c : option Z |- _ => destruct c end;
     cbn; lia|]).
  destruct H.
Qed.

Lemma lineEV_is_num board line :
  In line options ->
  length board = 9%nat \/ (length (takenNumbers board) < 4)%nat ->
  is_num (lineEV board line).
Proof.
  intros Hin H. unfold lineEV. rewrite calculateOptionEV_ev.
  apply ev_is_num.
  pose proof (availableNumbers_length board).
  destruct H as [H|H].
  - pose proof (nullCount_lineValues_nine board line H Hin). lia.
  - pose proof (nullCount_lineValues_le3 board line Hin). lia.
Qed.

(* ================================================================== *)
(** ** Math.max and the ranking of the lines *)

Lemma fold_max2 xs :
  forall a, Forall is_num xs ->
  exists m, fold_left max2 xs (Num a) = Num m /\
            (Num m = Num a \/ In (Num m) xs) /\
            (a <= m)%Q /\
            (forall q, In (Num q) xs -> (q <= m)%Q).
Proof.
  induction xs as [|x xs IH]; intros a H.
  - exists a. simpl. repeat split; auto with qarith; try tauto.
  - inversion H as [|? ? Hx Hxs]; subst.
    destruct x as [|y]; [contradiction|]. cbn [fold_left max2].
    destruct (Qle_bool a y) eqn:E.
    + apply Qle_bool_iff in E.
      destruct (IH y Hxs) as [m [Hm [Hin [Hle Hub]]]].
      exists m. split; [exact Hm|]. split; [|split].
      * destruct Hin as [Hin|Hin]; right; [left; now symmetry|now right].
      * now apply Qle_trans with y.
      * intros q [[= ->]|Hq]; auto.
    + assert (Hlt : (y <= a)%Q).
      { apply Qlt_le_weak, Qnot_le_lt. intros Hle.
        apply Qle_bool_iff in Hle. congruence. }
      destruct (IH a Hxs) as [m [Hm [Hin [Hle Hub]]]].
      exists m. split; [exact Hm|]. split; [|split].
      * destruct Hin as [Hin|Hin]; [now left|right; now right].
      * exact Hle.
      * intros q [[= ->]|Hq]; auto. now apply Qle_trans with a.
Qed.

Lemma Math_max_spec L :
  Forall is_num L -> L <> [] ->
  exists m, Math_max L = Num m /\ In (Num m) L /\
            (forall q, In (Num q) L -> (q <= m)%Q).
Proof.
  intros H Hne. destruct L as [|x xs]; [congruence|].
  inversion H as [|? ? Hx Hxs]; subst.
  destruct x as [|a]; [contradiction|].
  destruct (fold_max2 xs a Hxs) as [m [Hm [Hin [Hle Hub]]]].
  exists m. split; [exact Hm|]. split.
  - destruct Hin as [Hin|Hin]; [left; now symmetry|now right].
  - intros q [[= ->]|Hq]; auto.
Qed.

(** The map / filter / map chain that builds [bestOptions] keeps exactly the
    lines whose EV passes the test. *)
Lemma indexed_filter {A B} (f : A -> B) (p : B -> bool) (d : A) L :
  forall pre,
  map (fun item => nth (snd item) (pre ++ L) d)
      (filter (fun item => p (fst item))
              (combine (map f L) (seq (length pre) (length L))))
  = filter (fun x => p (f x)) L.
Proof.
  induction L as [|x L IH]; intros pre; [reflexivity|].
  cbn [map length seq combine filter fst snd].
  specialize (IH (pre ++ [x])).
  rewrite <- app_assoc, length_app in IH. simpl in IH.
  rewrite Nat.add_1_r in IH.
  destruct (p (f x)); cbn [map snd]; rewrite IH; [|reflexivity].
  f_equal. now rewrite nth_middle.
Qed.

Lemma calculateBestOptions_eq board :
  calculateBestOptions board =
  Returned (mkBestOptions
              (filter (fun line => strict_eq (lineEV board line)
                                             (baseline board)) options)
              (baseline board) lineNames).
Proof.
  unfold calculateBestOptions. f_equal. f_equal.
  rewrite map_map. fold (lineEV board).
  change (fun x => calculateOptionEV (lineValues board x)
                     (availableNumbers board)) with (lineEV board).
  rewrite length_map.
  exact (indexed_filter (lineEV board)
           (fun e => strict_eq e (baseline board)) [] options []).
Qed.




(* ================================================================== *)
(** ** The stable sort by position priority *)

Section SortByPriority.

Variable A : Type.
Variable prio : A -> Z.

Lemma sort_insert_skip x P B :
  Forall (fun y => prio x < prio y) P ->
  sort_insert (fun a b => prio b - prio a) x (P ++ B)
  = P ++ sort_insert (fun a b => prio b - prio a) x B.
Proof.
  induction 1 as [|y P Hy HP IH]; [reflexivity|].
  cbn [app sort_insert].
  replace (0 <? prio y - prio x) with true
    by (symmetry; apply Z.ltb_lt; lia).
  now rewrite IH.
Qed.

Lemma sort_insert_stop x B :
  Forall (fun y => prio y <= prio x) B ->
  sort_insert (fun a b => prio b - prio a) x B = x :: B.
Proof.
  intros H. destruct H as [|y B Hy HB]; [reflexivity|].
  cbn [sort_insert].
  replace (0 <? prio y - prio x) with false
    by (symmetry; apply Z.ltb_ge; lia).
  reflexivity.
Qed.

Lemma Forall_tier (P : Z -> Prop) k l :
  P k -> Forall (fun y => P (prio y)) (filter (fun y => prio y =? k) l).
Proof.
  intros Hk. apply Forall_forall. intros y Hy.
  apply filter_In in Hy. destruct Hy as [_ Hy].
  apply Z.eqb_eq in Hy. now rewrite Hy.
Qed.

Lemma sort_by_priority l :
  Forall (fun y => 2 <= prio y <= 4) l ->
  sort (fun a b => prio b - prio a) l
  = filter (fun y => prio y =? 4) l ++
    filter (fun y => prio y =? 3) l ++
    filter (fun y => prio y =? 2) l.
Proof.
  induction 1 as [|x l Hx Hl IH]; [reflexivity|].
  cbn [sort fold_right]. fold (sort (fun a b => prio b - prio a) l).
  rewrite IH. cbn [filter].
  assert (Hc : prio x = 4 \/ prio x = 3 \/ prio x = 2) by lia.
  destruct Hc as [E|[E|E]]; rewrite E; cbn [Z.eqb Pos.eqb app].
  - apply sort_insert_stop. rewrite E.
    apply Forall_app; split; [|apply Forall_app; split];
      apply (Forall_tier (fun v => v <= 4)); lia.
  - rewrite sort_insert_skip
      by (rewrite E; apply (Forall_tier (fun v => 3 < v)); lia).
    f_equal. apply sort_insert_stop. rewrite E.
    apply Forall_app; split;
      apply (Forall_tier (fun v => v <= 3)); lia.
  - rewrite app_assoc. rewrite sort_insert_skip.
    + rewrite <- app_assoc. do 2 f_equal.
      apply sort_insert_stop. rewrite E.
      apply (Forall_tier (fun v => v <= 2)); lia.
    + rewrite E. apply Forall_app; split;
        apply (Forall_tier (fun v => 2 < v)); lia.
Qed.

End SortByPriority.

(* ================================================================== *)
(** ** calculateCellEV and findBestCellsToReveal *)

Lemma cellScore_table (F : list nat -> number) i :
  (i < 9)%nat ->
  exists ls,
    cellLines i = Some ls /\
    fold_left (fun cellScore lineIndex =>
                 num_add cellScore (nth lineIndex (map F options) NaN))
              ls (Num 0)
    = fold_left num_add (map F (lines_through i)) (Num 0).
Proof.
  intros H.
  do 9 (destruct i as [|i]; [eexists; split; reflexivity|]). lia.
Qed.

Lemma calculateCellEV_gain board i :
  (i < 9)%nat -> is_null (array_get board i) = true ->
  calculateCellEV board i = Returned (gain board i).
Proof.
  intros Hi Hnull. unfold calculateCellEV. rewrite Hnull. cbn [negb].
  rewrite calculateBestOptions_eq. cbn [bind maxEV].
  change (fun line => calculateOptionEV (lineValues board line)
                        (availableNumbers board)) with (lineEV board).
  destruct (cellScore_table (lineEV board) i Hi) as [ls [-> E]].
  rewrite E. reflexivity.
Qed.

Lemma cellEVs_loop board idx :
  Forall (fun i => (i < 9)%nat) idx ->
  forall acc,
  fold_left
    (fun acc i =>
       bind acc (fun cellEVs =>
       if is_null (array_get board i) then
         bind (calculateCellEV board i) (fun ev =>
         Returned (cellEVs ++ [(i, ev)]))
       else Returned cellEVs))
    idx (Returned acc)
  = Returned (acc ++ map (fun p => (p, gain board p))
                         (filter (fun p => is_null (array_get board p)) idx)).
Proof.
  induction 1 as [|i idx Hi Hidx IH]; intros acc.
  - simpl. now rewrite app_nil_r.
  - cbn [fold_left bind filter].
    destruct (is_null (array_get board i)) eqn:E.
    + rewrite calculateCellEV_gain by assumption. cbn [bind].
      rewrite IH. cbn [map]. now rewrite <- app_assoc.
    + apply IH.
Qed.

Lemma within_epsilon_code g m :
  num_lt (Math_abs (num_sub g m)) epsilon = within_epsilon g m.
Proof. destruct g, m; reflexivity. Qed.

Lemma priority_tiers p :
  (p < 9)%nat ->
  (getPositionPriority p =? 4) = is_center p /\
  (getPositionPriority p =? 3) = is_corner p /\
  (getPositionPriority p =? 2) = is_edge p /\
  2 <= getPositionPriority p <= 4.
Proof.
  intros H.
  do 9 (destruct p as [|p]; [repeat split; (reflexivity || discriminate)|]).
  lia.
Qed.

Lemma unrevealed_lt board p : In p (unrevealed board) -> (p < 9)%nat.
Proof.
  unfold unrevealed. intros H. apply filter_In in H.
  destruct H as [H _]. apply in_seq in H. lia.
Qed.

Lemma fold_left_num_add_is_num L a :
  Forall is_num L -> is_num (fold_left num_add L (Num a)).
Proof. intros H. now rewrite fold_left_num. Qed.

Lemma baseline_is_num board :
  length board = 9%nat \/ (length (takenNumbers board) < 4)%nat ->
  is_num (baseline board).
Proof.
  intros H. unfold baseline.
  destruct (Math_max_spec (map (lineEV board) options)) as [m [-> _]];
    [| discriminate | exact I].
  apply Forall_forall. intros x Hx. apply in_map_iff in Hx.
  destruct Hx as [line [<- Hline]]. now apply lineEV_is_num.
Qed.

Lemma gain_is_num board p :
  (length (takenNumbers board) < 4)%nat -> is_num (gain board p).
Proof.
  intros H. unfold gain.
  pose proof (baseline_is_num board (or_intror H)) as Hb.
  assert (Hc : is_num (cellScore board p)).
  { unfold cellScore. apply fold_left_num_add_is_num.
    apply Forall_forall. intros x Hx. apply in_map_iff in Hx.
    destruct Hx as [line [<- Hline]]. apply lineEV_is_num; auto.
    unfold lines_through in Hline. apply filter_In in Hline. tauto. }
  destruct (cellScore board p), (baseline board); simpl in *; tauto.
Qed.

Lemma findBestCellsToReveal_eq board :
  (length (takenNumbers board) < 4)%nat ->
  findBestCellsToReveal board =
  Returned
    (if Nat.eqb (length (unrevealed board)) 0 then mkBestCells [] (Num 0)
     else mkBestCells
            (filter is_center (tied board) ++ filter is_corner (tied board)
             ++ filter is_edge (tied board))
            (maxGain board)).
Proof.
  intros Hlt. unfold findBestCellsToReveal.
  replace (4 <=? length (takenNumbers board))%nat with false
    by (symmetry; apply Nat.leb_gt; lia).
  rewrite cellEVs_loop
    by (apply Forall_forall; intros i Hi; apply in_seq in Hi; lia).
  cbn [bind app]. fold (unrevealed board). rewrite length_map.
  destruct (Nat.eqb (length (unrevealed board)) 0); [reflexivity|].
  rewrite map_map. cbn [snd].
  change (Math_max (map (fun x => gain board x) (unrevealed board)))
    with (maxGain board).
  rewrite filter_map_cons. cbn [snd].
  rewrite (filter_ext _ (fun p => within_epsilon (gain board p) (maxGain board)))
    by (intros p; apply within_epsilon_code).
  fold (tied board).
  assert (Ht : forall p, In p (tied board) -> (p < 9)%nat).
  { intros p Hp. apply (unrevealed_lt board). unfold tied in Hp.
    apply filter_In in Hp. tauto. }
  rewrite (sort_by_priority (nat * number)
             (fun c => getPositionPriority (fst c))).
  2:{ apply Forall_forall. intros c Hc. apply in_map_iff in Hc.
      destruct Hc as [p [<- Hp]]. cbn [fst].
      apply (priority_tiers p). auto. }
  rewrite !map_app, !filter_map_cons, !map_map. cbn [fst].
  rewrite !map_id.
  assert (E4 : filter (fun p => getPositionPriority p =? 4) (tied board)
               = filter is_center (tied board))
    by (apply filter_ext_in; intros p Hp; apply (priority_tiers p); auto).
  assert (E3 : filter (fun p => getPositionPriority p =? 3) (tied board)
               = filter is_corner (tied board))
    by (apply filter_ext_in; intros p Hp; apply (priority_tiers p); auto).
  assert (E2 : filter (fun p => getPositionPriority p =? 2) (tied board)
               = filter is_edge (tied board))
    by (apply filter_ext_in; intros p Hp; apply (priority_tiers p); auto).
  rewrite E4, E3, E2. reflexivity.
Qed.



(** C5: with 4 or more revealed cells no cell is suggested; on the board
    1,2,3,4 followed by five unrevealed cells the cell list is empty while the
    line ranking reports Row 1 alone with maxEV exactly 10000. *)
Theorem findBestCellsToReveal_four_revealed :
  (forall board : list (option Z),
     (4 <= length (takenNumbers board))%nat ->
     findBestCellsToReveal board = Returned (mkBestCells [] (Num 0)))
  /\ findBestCellsToReveal
       [Some 1; Some 2; Some 3; Some 4; None; None; None; None; None]
     = Returned (mkBestCells [] (Num 0))
  /\ calculateBestOptions
       [Some 1; Some 2; Some 3; Some 4; None; None; None; None; None]
     = Returned (mkBestOptions [[0; 1; 2]%nat] (Num 10000) lineNames)
  /\ nth 0 lineNames EmptyString = "Row 1"%string.
Proof.
  split; [|repeat split; vm_compute; reflexivity].
  intros board H. unfold findBestCellsToReveal.
  apply Nat.leb_le in H. now rewrite H.
Qed.

Lemma findBestCellsToReveal_four_revealed_witness :
  (4 <= length (takenNumbers board_diagonals))%nat
  /\ findBestCellsToReveal board_diagonals
     = Returned (mkBestCells [] (Num 0)).
Proof.
  split; [simpl; lia|].
  apply (proj1 findBestCellsToReveal_four_revealed). simpl; lia.
Defined.

(** C10: at a position that is already revealed calculateCellEV returns 0,
    whatever the rest of the board holds. *)
Theorem calculateCellEV_revealed :
  forall (board : list (option Z)) (p : nat),
    array_get board p <> Null ->
    calculateCellEV board p = Returned (Num 0).
Proof.
  intros board p H. unfold calculateCellEV.
  destruct (array_get board p); try reflexivity. congruence.
Qed.

Lemma calculateCellEV_revealed_witness :
  array_get board_7 0 <> Null /\
  calculateCellEV board_7 0 = Returned (Num 0).
Proof.
  split; [discriminate|].
  apply calculateCellEV_revealed. discriminate.
Defined.

(* ================================================================== *)
(** ** Validation *)

Import Validation.









(* ================================================================== *)
(** ** The two copies of the engine *)

Lemma valueToGil_same : Legacy.valueToGil = GameLogic.valueToGil.
Proof. reflexivity. Qed.

(** On the sums of the table the two copies of gilValue agree. *)
Lemma gilValue_copies_agree_on_table sum :
  6 <= sum <= 24 ->
  Legacy.gilValue (Num (inject_Z sum))
  = Some (GameLogic.gilValue (Num (inject_Z sum))).
Proof.
  intros H. unfold Legacy.gilValue, GameLogic.gilValue.
  rewrite valueToGil_same, property_inject_Z, valueToGil_payout.
  replace ((6 <=? sum) && (sum <=? 24)) with true
    by (symmetry; apply andb_true_iff; split; apply Z.leb_le; lia).
  cbn [option_map].
  destruct (Z.eqb_spec (payout sum) 0) as [E|E]; [|reflexivity].
  exfalso. revert E. now apply payout_nonzero.
Qed.

(** C9: the copies differ off the table.  For the total 5 the module answers
    0 and the older copy answers undefined; the older calculateOptionEV then
    hands back undefined or NaN where the module computes a number. *)
Theorem gilValue_copies_differ :
  GameLogic.gilValue (Num 5) = Num 0 /\
  Legacy.gilValue (Num 5) = None /\
  GameLogic.calculateOptionEV [Int 1; Int 1; Int 3] [] = Num 0 /\
  Legacy.calculateOptionEV [Int 1; Int 1; Int 3] [] = None /\
  GameLogic.calculateOptionEV [Int 1; Int 1; Null] [2; 3] = Num (0 # 2) /\
  Legacy.calculateOptionEV [Int 1; Int 1; Null] [2; 3] = Some NaN.
Proof. repeat split; vm_compute; reflexivity. Qed.

(* ================================================================== *)
(** ** Further properties of calculateOptionEV *)

Lemma fold_left_num_add_NaN L : fold_left num_add L NaN = NaN.
Proof. induction L as [|x L IH]; simpl; auto. Qed.

Lemma ev_nan k : forall s av, (length av < k)%nat -> ev k s av = NaN.
Proof.
  induction k as [|k IH]; intros s av H; [lia|].
  cbn [ev]. unfold average. destruct av as [|x av]; [reflexivity|].
  cbn [length seq map fold_left]. rewrite IH by (simpl in *; lia).
  cbn [num_add]. now rewrite fold_left_num_add_NaN.
Qed.

(** X1: calculateOptionEV yields NaN exactly when fewer digits are available
    than slots are open. *)
Theorem calculateOptionEV_NaN_iff :
  forall (optionValues : list value) (availableNumbers : list Z),
    calculateOptionEV optionValues availableNumbers = NaN <->
    (length availableNumbers < nullCount optionValues)%nat.
Proof.
  intros lv av. rewrite calculateOptionEV_ev. split.
  - intros H.
    destruct (Nat.lt_ge_cases (length av) (nullCount lv)) as [Hlt|Hge]; auto.
    pose proof (ev_is_num (nullCount lv) (sum_values lv) av Hge) as Hn.
    rewrite H in Hn. contradiction.
  - apply ev_nan.
Qed.

Lemma property_valueToGil_range s v :
  property valueToGil s = Some v -> 0 < v <= 10000.
Proof.
  destruct s as [|q]; [discriminate|]. cbn [property].
  destruct (find (fun kv => Qeq_bool q (inject_Z (fst kv))) valueToGil)
    as [kv|] eqn:E; [|discriminate].
  apply find_some in E. destruct E as [Hin _].
  cbn [option_map]. intros [= <-].
  unfold valueToGil in Hin. simpl in Hin.
  repeat (destruct Hin as [<-|Hin]; [simpl; lia|]). destruct Hin.
Qed.

Lemma inject_Z_bounds v lo hi :
  lo <= v <= hi -> (inject_Z lo <= inject_Z v <= inject_Z hi)%Q.
Proof. intros [H1 H2]. split; rewrite <- Zle_Qle; assumption. Qed.

Lemma gilValue_bounds s :
  exists q, gilValue s = Num q /\ (0 <= q <= 10000)%Q.
Proof.
  unfold gilValue. destruct (property valueToGil s) as [v|] eqn:E.
  - apply property_valueToGil_range in E.
    destruct (Z.eqb_spec v 0); [lia|].
    exists (inject_Z v). split; [reflexivity|].
    apply (inject_Z_bounds v 0 10000). lia.
  - exists 0%Q. split; [reflexivity|]. split; discriminate.
Qed.

Lemma Qsum_bounds (l : list Q) lo hi :
  Forall (fun q => lo <= q <= hi)%Q l ->
  (inject_Z (Z.of_nat (length l)) * lo <= Qsum l
   <= inject_Z (Z.of_nat (length l)) * hi)%Q.
Proof.
  induction 1 as [|q l [H1 H2] _ [IH1 IH2]].
  - simpl. split; rewrite Qmult_0_l; apply Qle_refl.
  - cbn [length Qsum fold_right]. fold (Qsum l).
    rewrite Nat2Z.inj_succ, <- Z.add_1_l, inject_Z_plus.
    split.
    + setoid_replace ((inject_Z 1 + inject_Z (Z.of_nat (length l))) * lo)%Q
        with (lo + inject_Z (Z.of_nat (length l)) * lo)%Q by ring.
      now apply Qplus_le_compat.
    + setoid_replace ((inject_Z 1 + inject_Z (Z.of_nat (length l))) * hi)%Q
        with (hi + inject_Z (Z.of_nat (length l)) * hi)%Q by ring.
      now apply Qplus_le_compat.
Qed.

Lemma average_bounds L lo hi :
  L <> [] ->
  Forall (fun x => exists q, x = Num q /\ (lo <= q <= hi)%Q) L ->
  exists q, average L = Num q /\ (lo <= q <= hi)%Q.
Proof.
  intros Hne HL.
  destruct (average_num L) as [q [Hq1 Hq2]]; auto.
  { apply Forall_forall. intros x Hx.
    rewrite Forall_forall in HL. destruct (HL x Hx) as [y [-> _]]. exact I. }
  exists q. split; [exact Hq1|].
  assert (Hb : Forall (fun q => lo <= q <= hi)%Q (map unNum L)).
  { apply Forall_forall. intros y Hy. apply in_map_iff in Hy.
    destruct Hy as [x [<- Hx]]. rewrite Forall_forall in HL.
    destruct (HL x Hx) as [z [-> Hz]]. exact Hz. }
  apply Qsum_bounds in Hb. rewrite length_map, <- Hq2 in Hb.
  assert (Hpos : (0 < inject_Z (Z.of_nat (length L)))%Q).
  { change 0%Q with (inject_Z 0). rewrite <- Zlt_Qlt.
    destruct L; [congruence|simpl; lia]. }
  destruct Hb as [Hb1 Hb2]. split.
  - apply (Qmult_le_r _ _ _ Hpos). now rewrite (Qmult_comm lo).
  - apply (Qmult_le_r _ _ _ Hpos). now rewrite (Qmult_comm hi).
Qed.

Lemma ev_bounds k :
  forall s av, (k <= length av)%nat ->
  exists q, ev k s av = Num q /\ (0 <= q <= 10000)%Q.
Proof.
  induction k as [|k IH]; intros s av Hk; [apply gilValue_bounds|].
  cbn [ev]. apply average_bounds.
  - destruct av; [simpl in Hk; lia|discriminate].
  - apply Forall_forall. intros x Hx. apply in_map_iff in Hx.
    destruct Hx as [i [<- Hi]]. apply in_seq in Hi. apply IH.
    rewrite length_remove_at by lia. lia.
Qed.

(** X2: whenever calculateOptionEV yields a number, that number lies
    between 0 and 10000, the smallest and the largest payout. *)
Theorem calculateOptionEV_bounds :
  forall (optionValues : list value) (availableNumbers : list Z) (q : Q),
    calculateOptionEV optionValues availableNumbers = Num q ->
    (0 <= q <= 10000)%Q.
Proof.
  intros lv av q H.
  destruct (Nat.lt_ge_cases (length av) (nullCount lv)) as [Hlt|Hge].
  - rewrite calculateOptionEV_ev, ev_nan in H by exact Hlt. discriminate.
  - rewrite calculateOptionEV_ev in H.
    destruct (ev_bounds (nullCount lv) (sum_values lv) av Hge) as [q' [E Hq]].
    rewrite E in H. now injection H as <-.
Qed.

Lemma calculateOptionEV_bounds_witness :
  calculateOptionEV [Null; Int 1; Int 2] [3; 4] = Num (10036 # 2) /\
  (0 <= 10036 # 2 <= 10000)%Q.
Proof.
  split; [reflexivity|].
  apply (calculateOptionEV_bounds [Null; Int 1; Int 2] [3; 4]). reflexivity.
Defined.







Lemma map_nth_seq {B} (g : Z -> B) av :
  map (fun i => g (nth i av 0)) (seq 0 (length av)) = map g av.
Proof.
  induction av as [|x av IH]; [reflexivity|].
  cbn [length seq map nth]. f_equal.
  rewrite <- seq_shift, map_map. exact IH.
Qed.

(** X4: with exactly one open slot the expected value is the mean, over the
    available digits in their order, of the payout of the line completed
    with that digit; with no digit available it is NaN. *)
Theorem calculateOptionEV_one_open_slot :
  forall (optionValues : list value) (availableNumbers : list Z),
    nullCount optionValues = 1%nat ->
    calculateOptionEV optionValues availableNumbers
    = average (map (fun d => gilValue (total_of (fill optionValues [d])))
                   availableNumbers)
    /\ (availableNumbers = [] ->
        calculateOptionEV optionValues availableNumbers = NaN).
Proof.
  intros lv av H.
  assert (E : calculateOptionEV lv av
              = average (map (fun d => gilValue (total_of (fill lv [d]))) av)).
  { rewrite calculateOptionEV_ev, H. cbn [ev]. f_equal.
    rewrite <- (map_nth_seq (fun d => gilValue (total_of (fill lv [d])))).
    apply map_ext. intros i. apply gilValue_proper.
    rewrite total_of_sum_values, fill_sum by (now rewrite H).
    simpl Zsum. now rewrite Z.add_0_r. }
  split; [exact E|]. intros ->. rewrite E. reflexivity.
Qed.

Lemma calculateOptionEV_one_open_slot_witness :
  nullCount [Int 1; Null; Int 2] = 1%nat /\
  calculateOptionEV [Int 1; Null; Int 2] [3; 4]
  = average (map (fun d => gilValue (total_of (fill [Int 1; Null; Int 2] [d])))
                 [3; 4]).
Proof.
  split; [reflexivity|].
  apply (calculateOptionEV_one_open_slot [Int 1; Null; Int 2] [3; 4]).
  reflexivity.
Defined.

(* ================================================================== *)
(** ** Further properties of the cell suggestion *)

Lemma cellLines_None p : cellLines p = None <-> (9 <= p)%nat.
Proof.
  split.
  - intros H. do 9 (destruct p as [|p]; [discriminate|]). lia.
  - intros H. do 9 (destruct p as [|p]; [lia|]). reflexivity.
Qed.

(** X5: calculateCellEV ends with an exception exactly when it is asked
    about a position past the ninth cell that holds null; for the positions
    0..8 it always returns. *)
Theorem calculateCellEV_throws_iff :
  forall (board : list (option Z)) (cellIndex : nat),
    (exists e, calculateCellEV board cellIndex = Thrown e) <->
    (9 <= cellIndex)%nat /\ array_get board cellIndex = Null.
Proof.
  intros board p. unfold calculateCellEV.
  destruct (array_get board p) eqn:E; cbn [is_null negb].
  - split; [intros [e He]; discriminate|intros [_ H]; discriminate].
  - rewrite calculateBestOptions_eq. cbn [bind].
    destruct (cellLines p) as [ls|] eqn:El.
    + split; [intros [e He]; discriminate|].
      intros [H _]. apply cellLines_None in H. congruence.
    + apply cellLines_None in El. split; [auto|]. intros _. eauto.
  - split; [intros [e He]; discriminate|intros [_ H]; discriminate].
Qed.

Lemma calculateCellEV_throws_iff_witness :
  (exists e, calculateCellEV (repeat None 10) 9 = Thrown e) /\
  (9 <= 9)%nat /\ array_get (repeat None 10) 9 = Null.
Proof.
  assert (H : (9 <= 9)%nat /\ array_get (repeat None 10) 9 = Null)
    by (split; [lia|reflexivity]).
  split; [|exact H].
  apply (proj2 (calculateCellEV_throws_iff (repeat None 10) 9)). exact H.
Defined.

Lemma tier_exclusive p :
  (is_center p = true -> is_corner p = false /\ is_edge p = false) /\
  (is_corner p = true -> is_edge p = false).
Proof.
  do 9 (destruct p as [|p]; [cbv; repeat split; congruence|]).
  cbv. repeat split; congruence.
Qed.

Lemma tied_NoDup board : NoDup (tied board).
Proof.
  unfold tied, unrevealed. do 2 apply NoDup_filter. apply seq_NoDup.
Qed.

Lemma tiers_NoDup (T : list nat) :
  NoDup T ->
  NoDup (filter is_center T ++ filter is_corner T ++ filter is_edge T).
Proof.
  intros H. apply NoDup_app; [now apply NoDup_filter| |].
  - apply NoDup_app; [now apply NoDup_filter|now apply NoDup_filter|].
    intros p Hc He. apply filter_In in Hc, He.
    destruct (tier_exclusive p) as [_ Hx]. destruct Hc as [_ Hc].
    rewrite (Hx Hc) in He. destruct He; discriminate.
  - intros p Hc Hr. apply filter_In in Hc. destruct Hc as [_ Hc].
    destruct (tier_exclusive p) as [Hx _]. destruct (Hx Hc) as [H1 H2].
    apply in_app_or in Hr. destruct Hr as [Hr|Hr];
      apply filter_In in Hr; destruct Hr as [_ Hr]; congruence.
Qed.

(** X6: findBestCellsToReveal never ends with an exception, whatever the
    board; the cells it suggests are pairwise different positions among
    0..8 that hold null. *)
Theorem findBestCellsToReveal_returns :
  forall board : list (option Z),
    exists r,
      findBestCellsToReveal board = Returned r /\
      NoDup (bestCells r) /\
      (forall p, In p (bestCells r) ->
                 (p < 9)%nat /\ array_get board p = Null).
Proof.
  intros board.
  destruct (Nat.lt_ge_cases (length (takenNumbers board)) 4) as [Hlt|Hge].
  - rewrite (findBestCellsToReveal_eq board Hlt). eexists.
    split; [reflexivity|].
    destruct (Nat.eqb (length (unrevealed board)) 0); cbn [bestCells].
    + split; [constructor|intros p []].
    + split; [apply tiers_NoDup, tied_NoDup|].
      intros p Hp.
      assert (Ht : In p (tied board)).
      { rewrite !in_app_iff, !filter_In in Hp. tauto. }
      unfold tied in Ht. apply filter_In in Ht. destruct Ht as [Hu _].
      split; [now apply (unrevealed_lt board)|].
      unfold unrevealed in Hu. apply filter_In in Hu. destruct Hu as [_ Hu].
      destruct (array_get board p); try discriminate. reflexivity.
  - unfold findBestCellsToReveal. apply Nat.leb_le in Hge. rewrite Hge.
    eexists. split; [reflexivity|]. cbn [bestCells].
    split; [constructor|intros p []].
Qed.

Lemma within_epsilon_refl m : within_epsilon (Num m) (Num m) = true.
Proof.
  cbn [within_epsilon]. apply negb_true_iff.
  destruct (Qle_bool (1 # 100) (Qabs (m - m))) eqn:E; [|reflexivity].
  apply Qle_bool_iff in E.
  assert (H0 : m - m == 0) by ring.
  rewrite H0 in E. unfold Qle in E. simpl in E. lia.
Qed.

Lemma unrevealed_nine board :
  length board = 9%nat -> (length (takenNumbers board) < 4)%nat ->
  unrevealed board <> [].
Proof.
  intros Hlen Hlt.
  do 9 (destruct board as [|? board]; [discriminate|]).
  destruct board; [|discriminate].
  repeat match goal with c : option Z |- _ => destruct c end;
    try discriminate; simpl in Hlt; lia.
Qed.

(** X7: while fewer than 4 cells are revealed, on a 9-cell board (or on any
    board with null at some position 0..8) the suggestion is not empty: a
    position whose gain is the maximum gain is among the suggested cells. *)
Theorem findBestCellsToReveal_suggests :
  forall board : list (option Z),
    (length (takenNumbers board) < 4)%nat ->
    length board = 9%nat \/ unrevealed board <> [] ->
    exists r p,
      findBestCellsToReveal board = Returned r /\
      In p (bestCells r) /\
      gain board p = cellsMaxEV r /\
      is_num (cellsMaxEV r).
Proof.
  intros board Hlt Hor.
  assert (Hne : unrevealed board <> []).
  { destruct Hor as [Hlen|H]; [now apply unrevealed_nine|exact H]. }
  rewrite (findBestCellsToReveal_eq board Hlt).
  destruct (Nat.eqb_spec (length (unrevealed board)) 0) as [E|E];
    [apply length_zero_iff_nil in E; contradiction|].
  destruct (Math_max_spec (map (gain board) (unrevealed board)))
    as [m [Hm [Hin _]]].
  { apply Forall_forall. intros x Hx. apply in_map_iff in Hx.
    destruct Hx as [p [<- _]]. now apply gain_is_num. }
  { destruct (unrevealed board); [congruence|discriminate]. }
  fold (maxGain board) in Hm. apply in_map_iff in Hin.
  destruct Hin as [p [Hg Hp]].
  eexists. exists p. split; [reflexivity|]. cbn [bestCells cellsMaxEV].
  rewrite Hm. split; [|split; [exact Hg|exact I]].
  assert (Ht : In p (tied board)).
  { unfold tied. apply filter_In. split; [exact Hp|].
    rewrite Hg, Hm. apply within_epsilon_refl. }
  pose proof (unrevealed_lt board p Hp) as H9.
  assert (Hc : is_center p = true \/ is_corner p = true \/ is_edge p = true).
  { do 9 (destruct p as [|p]; [cbv; tauto|]). lia. }
  rewrite !in_app_iff, !filter_In. tauto.
Qed.

Lemma findBestCellsToReveal_suggests_witness :
  (length (takenNumbers board_1_2) < 4)%nat /\
  (length board_1_2 = 9%nat \/ unrevealed board_1_2 <> []) /\
  exists r p,
    findBestCellsToReveal board_1_2 = Returned r /\
    In p (bestCells r) /\
    gain board_1_2 p = cellsMaxEV r /\
    is_num (cellsMaxEV r).
Proof.
  assert (H1 : (length (takenNumbers board_1_2) < 4)%nat) by (simpl; lia).
  split; [exact H1|]. split; [left; reflexivity|].
  exact (findBestCellsToReveal_suggests board_1_2 H1 (or_introl eq_refl)).
Defined.

(* ================================================================== *)
(** ** formatBestOptions *)

Lemma formatTable_options : formatTable = options.
Proof. reflexivity. Qed.

Lemma findIndex_table i :
  (i < 8)%nat ->
  findIndex (fun opt => same_at opt (nth i options []) 0
                        && same_at opt (nth i options []) 1
                        && same_at opt (nth i options []) 2)
            formatTable
  = Some i.
Proof.
  intros H. do 8 (destruct i as [|i]; [reflexivity|]). lia.
Qed.

Lemma nth_error_default (names : list string) i :
  match nth_error names i with Some x => x | None => EmptyString end
  = nth i names EmptyString.
Proof.
  revert i. induction names as [|n names IH]; intros [|i]; simpl; auto.
Qed.

(** X8: formatBestOptions finds every line of the table again: for a
    non-empty list of lines taken from the table it prints, in the same
    order and separated by a comma and a space, the names stored at the
    lines' table positions (nothing for a position the names do not
    reach). *)
Theorem formatBestOptions_table_lines :
  forall (indices : list nat) (optionNames : list string),
    indices <> [] ->
    Forall (fun i => (i < 8)%nat) indices ->
    formatBestOptions (map (fun i => nth i options []) indices) optionNames
    = String.concat ", "
        (map (fun i => nth i optionNames EmptyString) indices).
Proof.
  intros idx names Hne Hall. unfold formatBestOptions, join.
  rewrite length_map.
  destruct idx as [|i0 idx0]; [congruence|]. cbn [length Nat.eqb].
  f_equal. rewrite !map_map. apply map_ext_in. intros i Hi.
  rewrite Forall_forall in Hall.
  rewrite (findIndex_table i (Hall i Hi)). apply nth_error_default.
Qed.

Lemma formatBestOptions_table_lines_witness :
  [0; 7]%nat <> [] /\ Forall (fun i => (i < 8)%nat) [0; 7]%nat /\
  formatBestOptions (map (fun i => nth i options []) [0; 7]%nat) lineNames
  = "Row 1, Diagonal (Top-Right)"%string.
Proof.
  assert (H1 : [0; 7]%nat <> []) by discriminate.
  assert (H2 : Forall (fun i => (i < 8)%nat) [0; 7]%nat)
    by (repeat constructor; lia).
  split; [exact H1|]. split; [exact H2|].
  rewrite (formatBestOptions_table_lines [0; 7]%nat lineNames H1 H2).
  reflexivity.
Defined.




(* ================================================================== *)
(** ** The older calculateOptionEV on well-formed input *)

Lemma legacy_rec_S fuel ov av :
  Legacy.calculateOptionEV_rec (S fuel) ov av =
  if Nat.eqb (nullCount ov) 0 then Legacy.gilValue (total_of ov)
  else match indexOf_null ov with
       | None => Some NaN
       | Some j =>
           Some (average
             (map (fun i => Legacy.result_to_number
                              (Legacy.calculateOptionEV_rec fuel
                                 (array_set ov j (Int (nth i av 0)))
                                 (remove_at i av)))
                  (seq 0 (length av))))
       end.
Proof.
  cbn [Legacy.calculateOptionEV_rec].
  destruct (Nat.eqb (nullCount ov) 0); [reflexivity|].
  destruct (indexOf_null ov) as [j|]; [|reflexivity].
  pose proof (loop_pairs
    (fun i => Legacy.result_to_number
                (Legacy.calculateOptionEV_rec fuel
                   (array_set ov j (Int (nth i av 0))) (remove_at i av)))
    (seq 0 (length av)) (Num 0) O) as L.
  cbv beta zeta in L |- *. rewrite L.
  unfold average. now rewrite length_map, length_seq.
Qed.

Lemma legacy_gilValue_proper s s' :
  num_eq s s' -> Legacy.gilValue s = Legacy.gilValue s'.
Proof.
  intros H. unfold Legacy.gilValue.
  now rewrite (property_proper Legacy.valueToGil s s' H).
Qed.

Lemma digits_array_set lv j d :
  indexOf_null lv = Some j ->
  Permutation (digits (array_set lv j (Int d))) (d :: digits lv).
Proof.
  revert j. induction lv as [|v t IH]; intros j; [discriminate|].
  simpl indexOf_null. destruct (is_null v) eqn:E.
  - intros [= <-]. destruct v; try discriminate. reflexivity.
  - destruct (indexOf_null t) as [j'|]; [|discriminate].
    intros [= <-]. specialize (IH j' eq_refl).
    destruct v as [| |z]; try discriminate; cbn [array_set digits]; auto.
    rewrite IH. apply perm_swap.
Qed.

Lemma remove_at_perm (av : list Z) i :
  (i < length av)%nat -> Permutation (nth i av 0 :: remove_at i av) av.
Proof.
  revert i. induction av as [|x t IH]; intros i H; [simpl in H; lia|].
  destruct i as [|i]; cbn [nth remove_at]; [reflexivity|].
  simpl in H. rewrite perm_swap. apply perm_skip, IH. lia.
Qed.

Lemma length_array_set lv j v : length (array_set lv j v) = length lv.
Proof.
  revert j. induction lv as [|x t IH]; intros [|j]; simpl; auto.
Qed.

Lemma array_set_defined lv j d :
  Forall (fun v => v <> Undefined) lv ->
  Forall (fun v => v <> Undefined) (array_set lv j (Int d)).
Proof.
  intros H. revert j. induction H as [|x t Hx Ht IH]; intros [|j]; simpl;
    constructor; auto. discriminate.
Qed.

Lemma well_formed_step lv av j i :
  well_formed lv av -> indexOf_null lv = Some j -> (i < length av)%nat ->
  well_formed (array_set lv j (Int (nth i av 0))) (remove_at i av).
Proof.
  intros [Hlen [Hdef [Hnd Hr]]] Hj Hi.
  assert (Hp : Permutation (digits (array_set lv j (Int (nth i av 0)))
                            ++ remove_at i av)
                           (digits lv ++ av)).
  { transitivity ((nth i av 0 :: digits lv) ++ remove_at i av).
    - apply Permutation_app_tail. now apply digits_array_set.
    - cbn [app].
      transitivity (digits lv ++ nth i av 0 :: remove_at i av).
      + apply Permutation_middle.
      + apply Permutation_app_head. now apply remove_at_perm. }
  split; [now rewrite length_array_set|].
  split; [now apply array_set_defined|].
  split.
  - apply (Permutation_NoDup (Permutation_sym Hp) Hnd).
  - apply (Permutation_Forall (Permutation_sym Hp) Hr).
Qed.

Lemma well_formed_revealed lv av :
  well_formed lv av -> nullCount lv = O ->
  exists sum, 6 <= sum <= 24 /\ num_eq (total_of lv) (Num (inject_Z sum)).
Proof.
  intros [Hlen [Hdef [Hnd Hr]]] Hk.
  destruct lv as [|v0 [|v1 [|v2 [|? ?]]]]; try discriminate.
  rewrite !nullCount_cons in Hk.
  inversion Hdef as [|? ? H0 Hd1]; subst.
  inversion Hd1 as [|? ? H1 Hd2]; subst.
  inversion Hd2 as [|? ? H2 _]; subst.
  destruct v0 as [| |a]; try congruence; try discriminate.
  destruct v1 as [| |b]; try congruence; try discriminate.
  destruct v2 as [| |c]; try congruence; try discriminate.
  cbn [digits app] in Hnd, Hr.
  inversion Hnd as [|? ? Ha Hnd1]; subst.
  inversion Hnd1 as [|? ? Hb _]; subst.
  assert (a <> b) by (intros ->; apply Ha; simpl; auto).
  assert (a <> c) by (intros ->; apply Ha; simpl; auto).
  assert (b <> c) by (intros ->; apply Hb; simpl; auto).
  inversion Hr as [|? ? Ra Hr1]; subst.
  inversion Hr1 as [|? ? Rb Hr2]; subst.
  inversion Hr2 as [|? ? Rc _]; subst.
  exists (a + b + c). split; [lia|].
  unfold total_of. simpl. rewrite !inject_Z_plus. ring.
Qed.

Lemma legacy_rec_agrees fuel :
  forall lv av,
    (nullCount lv < fuel)%nat -> well_formed lv av ->
    Legacy.calculateOptionEV_rec fuel lv av
    = Some (calculateOptionEV_rec fuel lv av).
Proof.
  induction fuel as [|fuel IH]; intros lv av Hlt Hwf; [lia|].
  rewrite legacy_rec_S, calculateOptionEV_rec_S.
  destruct (Nat.eqb_spec (nullCount lv) 0) as [E|E].
  - destruct (well_formed_revealed lv av Hwf E) as [sum [Hs Ht]].
    rewrite (legacy_gilValue_proper _ _ Ht), (gilValue_proper _ _ Ht).
    now apply gilValue_copies_agree_on_table.
  - destruct (indexOf_null_some lv E) as [j Hj]. rewrite Hj.
    f_equal. f_equal. apply map_ext_in. intros i Hi. apply in_seq in Hi.
    destruct (fill_first_null lv j (nth i av 0) Hj) as [Hc _].
    rewrite IH; [reflexivity| |].
    + rewrite Hc. lia.
    + apply well_formed_step; auto. lia.
Qed.

(** X10: on a line of three slots whose digits, together with the
    available ones, are pairwise different digits of 1..9, the older copy of
    calculateOptionEV returns the very number the game-logic module
    returns. *)
Theorem legacy_calculateOptionEV_agrees :
  forall (optionValues : list value) (availableNumbers : list Z),
    well_formed optionValues availableNumbers ->
    Legacy.calculateOptionEV optionValues availableNumbers
    = Some (GameLogic.calculateOptionEV optionValues availableNumbers).
Proof.
  intros lv av H. apply legacy_rec_agrees; [lia|exact H].
Qed.

Lemma legacy_calculateOptionEV_agrees_witness :
  well_formed [Null; Int 1; Null] [3; 4; 5] /\
  Legacy.calculateOptionEV [Null; Int 1; Null] [3; 4; 5]
  = Some (GameLogic.calculateOptionEV [Null; Int 1; Null] [3; 4; 5]).
Proof.
  assert (H : well_formed [Null; Int 1; Null] [3; 4; 5]).
  { split; [reflexivity|]. split; [repeat constructor; discriminate|].
    split.
    - repeat constructor; simpl; intuition discriminate.
    - repeat constructor; simpl; lia. }
  split; [exact H|]. now apply legacy_calculateOptionEV_agrees.
Defined.

(* ================================================================== *)
(** ** Further properties of the validation module *)











(** X14: the page starts ranking lines at the very count at which the
    engine stops suggesting cells: when hasEnoughInputs, with its default
    minimum of 4, is true, findBestCellsToReveal returns the empty
    suggestion, and when it is false on a 9-cell board the suggestion is not
    empty. *)
Theorem hasEnoughInputs_findBestCellsToReveal :
  forall board : list (option Z),
    (hasEnoughInputs board None = true <->
     (4 <= length (takenNumbers board))%nat) /\
    (hasEnoughInputs board None = true ->
     findBestCellsToReveal board = Returned (mkBestCells [] (Num 0))) /\
    (hasEnoughInputs board None = false -> length board = 9%nat ->
     exists r, findBestCellsToReveal board = Returned r /\
               bestCells r <> []).
Proof.
  intros board.
  assert (H : hasEnoughInputs board None = true <->
              (4 <= length (takenNumbers board))%nat).
  { unfold hasEnoughInputs. rewrite Z.leb_le. lia. }
  split; [exact H|]. split.
  - intros Ht. apply H in Ht. unfold findBestCellsToReveal.
    apply Nat.leb_le in Ht. now rewrite Ht.
  - intros Hf Hlen.
    assert (Hlt : (length (takenNumbers board) < 4)%nat).
    { destruct (Nat.lt_ge_cases (length (takenNumbers board)) 4) as [L|G];
        [exact L|]. apply H in G. congruence. }
    rewrite (findBestCellsToReveal_eq board Hlt).
    pose proof (unrevealed_nine board Hlen Hlt) as Hne.
    destruct (Nat.eqb_spec (length (unrevealed board)) 0) as [E|E];
      [apply length_zero_iff_nil in E; contradiction|].
    eexists. split; [reflexivity|]. cbn [bestCells].
    destruct (Math_max_spec (map (gain board) (unrevealed board)))
      as [m [Hm [Hin _]]].
    { apply Forall_forall. intros x Hx. apply in_map_iff in Hx.
      destruct Hx as [p [<- _]]. now apply gain_is_num. }
    { destruct (unrevealed board); [congruence|discriminate]. }
    fold (maxGain board) in Hm. apply in_map_iff in Hin.
    destruct Hin as [p [Hg Hp]].
    assert (Ht : In p (tied board)).
    { unfold tied. apply filter_In. split; [exact Hp|].
      rewrite Hg, Hm. apply within_epsilon_refl. }
    pose proof (unrevealed_lt board p Hp) as H9.
    assert (Hc : is_center p = true \/ is_corner p = true
                 \/ is_edge p = true).
    { do 9 (destruct p as [|p]; [cbv; tauto|]). lia. }
    intros Hnil.
    assert (Hin : In p (filter is_center (tied board)
                        ++ filter is_corner (tied board)
                        ++ filter is_edge (tied board))).
    { rewrite !in_app_iff, !filter_In. tauto. }
    rewrite Hnil in Hin. destruct Hin.
Qed.

(* ================================================================== *)
(** ** Cleaning what is typed *)

Lemma sanitizeInput_all_digits input :
  all_digits (sanitizeInput input) = true.
Proof.
  induction input as [|c rest IH]; [reflexivity|].
  cbn [sanitizeInput]. destruct (is_digit c) eqn:E; [|exact IH].
  cbn [all_digits]. now rewrite E, IH.
Qed.

(** X15: sanitizeInput leaves decimal digits only, keeps a string of digits
    as it is, works piece by piece on a concatenation and changes nothing
    when applied a second time. *)
Theorem sanitizeInput_digits :
  forall input : string,
    all_digits (sanitizeInput input) = true /\
    (all_digits input = true -> sanitizeInput input = input) /\
    sanitizeInput (sanitizeInput input) = sanitizeInput input /\
    (forall more : string,
       sanitizeInput (input ++ more)
       = (sanitizeInput input ++ sanitizeInput more)%string).
Proof.
  intros input.
  pose proof (sanitizeInput_all_digits input) as H1.
  assert (H2 : forall s, all_digits s = true -> sanitizeInput s = s).
  { induction s as [|c rest IH]; [reflexivity|].
    cbn [all_digits sanitizeInput]. intros H.
    apply andb_true_iff in H. destruct H as [Hc Hr].
    now rewrite Hc, (IH Hr). }
  split; [exact H1|]. split; [apply H2|]. split; [now apply H2|].
  clear H1 H2. intros more.
  induction input as [|c rest IH]; [reflexivity|].
  cbn [append sanitizeInput]. destruct (is_digit c); cbn [append];
    now rewrite IH.
Qed.

Lemma sanitizeInput_digits_witness :
  all_digits "2024" = true /\ sanitizeInput "2024" = "2024"%string.
Proof.
  split; [reflexivity|].
  apply (proj1 (proj2 (sanitizeInput_digits "2024"))). reflexivity.
Defined.

Lemma parse_digits_some s : forall n, exists m, parse_digits (Some n) s = Some m.
Proof.
  induction s as [|c rest IH]; intros n; cbn [parse_digits]; eauto.
  destruct (is_digit c); eauto.
Qed.

Lemma sanitizeInput_head input c rest :
  sanitizeInput input = String c rest -> is_digit c = true.
Proof.
  intros H. pose proof (sanitizeInput_all_digits input) as Hd.
  rewrite H in Hd. cbn [all_digits] in Hd.
  now apply andb_true_iff in Hd.
Qed.

Lemma single_digit n :
  1 <= n <= 9 ->
  String.length (show_Z n) = 1%nat /\
  parseInt (show_Z n) = Some n /\
  isValidNumber n = true /\
  validateAndCleanInput (show_Z n) = show_Z n.
Proof.
  intros H.
  assert (Hc : n = 1 \/ n = 2 \/ n = 3 \/ n = 4 \/ n = 5 \/ n = 6 \/ n = 7
               \/ n = 8 \/ n = 9) by lia.
  repeat (destruct Hc as [->|Hc]; [repeat split; reflexivity|]).
  subst n. repeat split; reflexivity.
Qed.

(** X16: whatever is typed, validateAndCleanInput returns either the empty
    string or one digit of 1..9, which parseInt reads back and
    isValidNumber accepts; cleaning a cleaned value changes nothing. *)
Theorem validateAndCleanInput_result :
  forall value : string,
    (validateAndCleanInput value = ""%string \/
     exists n, 1 <= n <= 9 /\
               validateAndCleanInput value = show_Z n /\
               String.length (validateAndCleanInput value) = 1%nat /\
               parseInt (validateAndCleanInput value) = Some n /\
               isValidNumber n = true) /\
    validateAndCleanInput (validateAndCleanInput value)
    = validateAndCleanInput value.
Proof.
  intros value.
  assert (H : validateAndCleanInput value = ""%string \/
              exists n, 1 <= n <= 9 /\ validateAndCleanInput value = show_Z n).
  { unfold validateAndCleanInput.
    destruct (sanitizeInput value) as [|c rest] eqn:E; [left; reflexivity|].
    cbn [String.eqb negb]. unfold parseInt. cbn [parse_digits].
    rewrite (sanitizeInput_head value c rest E).
    destruct (parse_digits_some rest (Z.of_nat (Ascii.nat_of_ascii c) - 48))
      as [m ->].
    destruct (Z.ltb_spec m 1) as [L|L]; [left; reflexivity|].
    destruct (Z.ltb_spec 9 m) as [G|G]; [left; reflexivity|].
    right. exists m. split; [lia|reflexivity]. }
  destruct H as [->|[n [Hn ->]]].
  - split; [now left|reflexivity].
  - destruct (single_digit n Hn) as [H1 [H2 [H3 H4]]].
    split; [|exact H4]. right. exists n. repeat split; auto; lia.
Qed.

(* ================================================================== *)
(** ** Keys and duplicates in the page code *)

(** X17: the key filter of the page and the one of the validation module
    decide alike: preventInvalidInput cancels a key exactly when
    isAllowedKey rejects it. *)
Theorem preventInvalidInput_isAllowedKey :
  forall event : KeyboardEvent,
    UIManager.preventInvalidInput event = negb (isAllowedKey event).
Proof.
  intros [k ctrl shift].
  unfold UIManager.preventInvalidInput, isAllowedKey.
  cbn [keyCode ctrlKey shiftKey].
  destruct (includes [8; 9; 27; 13; 46; 37; 38; 39; 40] k);
    [reflexivity|].
  unfold includes. cbn [existsb orb].
  destruct (k =? 65), (k =? 67), (k =? 86), (k =? 88), ctrl, shift,
    (k <? 49), (57 <? k); reflexivity.
Qed.






(* ================================================================== *)
(** ** The older engine on boards that pass validateBoard *)











(* ================================================================== *)
(** ** The two line tables *)

(** X20: the table of calculateCellEV agrees with the table of lines: for a
    position 0..8 it lists, in increasing order, exactly the indices of the
    lines that contain the position, between 2 and 4 of them; past 8 it has
    no entry. *)
Theorem cellLines_matches_options :
  forall p : nat,
    ((p < 9)%nat ->
     cellLines p
     = Some (filter (fun i => existsb (Nat.eqb p) (nth i options []))
                    (seq 0 (length options)))
     /\ exists ls, cellLines p = Some ls /\ (2 <= length ls <= 4)%nat
                   /\ getPositionPriority p = Z.of_nat (length ls))
    /\ ((9 <= p)%nat -> cellLines p = None).
Proof.
  intros p. split.
  - intros H.
    do 9 (destruct p as [|p];
          [split; [reflexivity|];
           eexists; split; [reflexivity|split; [simpl; lia|reflexivity]]|]).
    lia.
  - apply cellLines_None.
Qed.

Lemma cellLines_matches_options_witness :
  (4 < 9)%nat /\ cellLines 4 = Some [1; 4; 6; 7]%nat.
Proof.
  split; [lia|].
  destruct (proj1 (cellLines_matches_options 4)) as [H _]; [lia|].
  rewrite H. reflexivity.
Defined.

(* ================================================================== *)
(** ** Instances *)

Lemma calculateOptionEV_NaN_iff_witness :
  (length [3] < nullCount [Null; Int 1; Null])%nat /\
  calculateOptionEV [Null; Int 1; Null] [3] = NaN.
Proof.
  assert (H : (length [3] < nullCount [Null; Int 1; Null])%nat)
    by (unfold nullCount; simpl; lia).
  split; [exact H|].
  apply (proj2 (calculateOptionEV_NaN_iff [Null; Int 1; Null] [3])).
  exact H.
Defined.

Lemma findBestCellsToReveal_returns_witness :
  exists r,
    findBestCellsToReveal board_1_2 = Returned r /\
    NoDup (bestCells r) /\
    (forall p, In p (bestCells r) ->
               (p < 9)%nat /\ array_get board_1_2 p = Null).
Proof. exact (findBestCellsToReveal_returns board_1_2). Defined.




Lemma hasEnoughInputs_findBestCellsToReveal_witness :
  hasEnoughInputs board_diagonals None = true /\
  findBestCellsToReveal board_diagonals = Returned (mkBestCells [] (Num 0)).
Proof.
  split; [reflexivity|].
  apply (proj1 (proj2 (hasEnoughInputs_findBestCellsToReveal board_diagonals))).
  reflexivity.
Defined.
